(** * Retail Management System: the sale transaction, the product catalogue
    and the two reports of [rms_backend.py], embedded in Rocq.

    The relational store is modelled as a record of tables.  A table with an
    integer primary key is a finite map from the key to the remaining
    columns; the append-only ledgers [sales] and [sale_items] are lists.
    Columns declared [nullable=False] carry a value, the others an
    [option].  Python's [int] is [Z]; Python's [float] is IEEE binary64,
    written out over [Z] in [Module Float64].

    The storage is MySQL ([DATABASE_URL]) in its default strict mode: a
    value written to a [Column(Integer)] has to lie in the range of a signed
    32-bit integer, otherwise the statement is refused.

    Not modelled: the [created_at]/[updated_at] columns of products,
    suppliers and customers (filled from the server clock and never read by
    the operations below), the length limits of the string columns, the end
    of the AUTO_INCREMENT counters and the ids a refused INSERT uses up
    (ids are handed out without gaps), and the collation the storage
    compares strings with (SKU equality is equality of strings; the
    ordering of names is a parameter). *)

From Stdlib Require Import ZArith Lia Permutation.
From Stdlib Require SpecFloat.
From stdpp Require Import base tactics option list gmap strings pretty sorting.

Local Open Scope Z_scope.

(* ===================================================================== *)
(** ** Python values                                                      *)
(* ===================================================================== *)

(** [str(n)] for a Python [int], as an f-string renders it. *)
Definition str_int (n : Z) : string := pretty n.

(** IEEE 754 binary64, the representation of a Python [float].  Only finite
    values are represented; an operation whose result is out of range
    returns [None] (Python raises [OverflowError] at the conversion of such
    an [int], or when [int()] is applied to the infinity a product rounds
    to).  Results below the normal range are not rounded to subnormals:
    none arises from an integer times [TAX_RATE]. *)
Module Float64.

Definition prec : Z := 53.
Definition emax : Z := 1024.

(** The value of [{| neg; man; exp |}] is [(-1)^neg * man * 2^exp], with
    [0 <= man < 2^53]. *)
Record t := mk { neg : bool; man : Z; exp : Z }.

(** Number of binary digits of a non-negative integer. *)
Definition digits (n : Z) : Z := if n =? 0 then 0 else Z.log2 n + 1.

(** [n / 2^k] rounded to the nearest integer, ties to even ([0 < k]). *)
Definition round_shift (n k : Z) : Z :=
  let q := n / 2 ^ k in
  let r := n mod 2 ^ k in
  let half := 2 ^ (k - 1) in
  if r <? half then q
  else if half <? r then q + 1
  else if Z.even q then q else q + 1.

(** The binary64 nearest to [(-1)^s * n * 2^e] for [0 <= n]
    (round to nearest, ties to even). *)
Definition normalize (s : bool) (n e : Z) : option t :=
  let k := digits n - prec in
  let '(m, e') := if 0 <? k then (round_shift n k, e + k) else (n, e) in
  if emax <? digits m + e' then None else Some (mk s m e').

(** [float(n)] for a Python [int]. *)
Definition of_int (n : Z) : option t := normalize (n <? 0) (Z.abs n) 0.

(** [a * b]. *)
Definition mul (a b : t) : option t :=
  normalize (xorb (neg a) (neg b)) (man a * man b) (exp a + exp b).

(** [int(a)]: truncation toward zero. *)
Definition to_int (a : t) : Z :=
  let mag := if 0 <=? exp a then man a * 2 ^ exp a
             else man a / 2 ^ (- exp a) in
  if neg a then - mag else mag.

End Float64.

(** [TAX_RATE = 0.08]: the binary64 nearest to 8/100, which is
    [0x147AE147AE147B * 2^-56]. *)
Definition TAX_RATE : Float64.t :=
  Float64.mk false 5764607523034235 (-56).

(** [int(n * TAX_RATE)] for a Python [int] [n]; [None] stands for
    [OverflowError]. *)
Definition int_mul_TAX_RATE (n : Z) : option Z :=
  a ← Float64.of_int n;
  p ← Float64.mul a TAX_RATE;
  Some (Float64.to_int p).

(** A [datetime] is a count of microseconds, a [date] a count of days, both
    from the same origin. *)
Definition datetime := Z.
Definition date := Z.
Definition usec_per_day : Z := 86400000000.

(** [datetime.combine(d, datetime.min.time())]: 00:00:00.000000 of [d]. *)
Definition combine_min (d : date) : datetime := d * usec_per_day.
(** [datetime.combine(d, datetime.max.time())]: 23:59:59.999999 of [d]. *)
Definition combine_max (d : date) : datetime :=
  d * usec_per_day + (usec_per_day - 1).
(** The calendar day a [datetime] falls in. *)
Definition date_of (ts : datetime) : date := ts / usec_per_day.

(* ===================================================================== *)
(** ** Exceptions and responses                                           *)
(* ===================================================================== *)

(** Exceptions other than [HTTPException] that the modelled code can
    raise. *)
Inductive fault :=
| TypeError        (* an operator applied to [None] *)
| OverflowError    (* [int] too large for a [float] *)
| IntegrityError   (* the storage refuses a write: NOT NULL, UNIQUE, FOREIGN KEY *)
| DataError        (* the storage refuses a value: out of the range of its column *)
| ProgrammingError (* the storage refuses a statement: negative LIMIT/OFFSET *).

Inductive exception :=
| HTTPException (status_code : Z) (detail : string)
| Unhandled (f : fault).

Inductive result (A : Type) :=
| Ok (a : A)
| Raise (e : exception).
Arguments Ok {A} a.
Arguments Raise {A} e.

Global Instance result_ret : MRet result := @Ok.
Global Instance result_bind : MBind result := λ A B k r,
  match r with
  | Ok a => k a
  | Raise e => Raise e
  end.

(** What an endpoint answers: the value, an [HTTPException] of the domain
    checks, or the status 500 its [except Exception] handler builds, whose
    detail is [prefix] followed by the text of the fault. *)
Inductive response (A : Type) :=
| Success (a : A)
| HTTPError (status_code : Z) (detail : string)
| ServerError (prefix : string) (cause : fault).
Arguments Success {A} a.
Arguments HTTPError {A} status_code detail.
Arguments ServerError {A} prefix cause.

(** [try: ... except HTTPException: raise; except Exception as e:
    raise HTTPException(500, prefix + str(e))]. *)
Definition respond {A} (prefix : string) (r : result A) : response A :=
  match r with
  | Ok a => Success a
  | Raise (HTTPException c d) => HTTPError c d
  | Raise (Unhandled f) => ServerError prefix f
  end.

(* ===================================================================== *)
(** ** Tables (the SQLAlchemy models)                                     *)
(* ===================================================================== *)

Module Supplier.
Record t := mk {
  name : string;
  contact_name : option string;
  phone : option string;
  email : option string;
  address : option string
}.
End Supplier.

Module Customer.
Record t := mk {
  name : string;
  phone : option string;
  email : option string
}.
End Customer.

(** A row of [products]; its [id] is the key it is stored under. *)
Module Product.
Record t := mk {
  name : string;
  sku : string;
  unit_price_cents : Z;
  quantity_available : option Z;
  reorder_level : option Z;
  supplier_id : option Z
}.

Definition set_quantity_available (q : option Z) (p : t) : t :=
  mk (name p) (sku p) (unit_price_cents p) q (reorder_level p)
     (supplier_id p).
End Product.

Module Sale.
Record t := mk {
  id : Z;
  customer_id : option Z;
  subtotal_cents : Z;
  tax_cents : Z;
  total_cents : Z;
  created_at : datetime
}.
End Sale.

Module SaleItem.
Record t := mk {
  id : Z;
  sale_id : Z;
  product_id : Z;
  unit_price_cents : Z;
  quantity : Z;
  line_total_cents : Z
}.
End SaleItem.

(** The committed state of the store.  [next_product_id] is the
    AUTO_INCREMENT counter of [products]; [sales] and [sale_items], like
    [suppliers] and [customers], are never deleted from, and their next id
    is one more than their number of rows. *)
Record DB := mkDB {
  suppliers : gmap Z Supplier.t;
  customers : gmap Z Customer.t;
  products : gmap Z Product.t;
  next_product_id : Z;
  sales : list Sale.t;
  sale_items : list SaleItem.t
}.

Definition empty_db : DB := mkDB ∅ ∅ ∅ 1 [] [].

Definition set_products (ps : gmap Z Product.t) (db : DB) : DB :=
  mkDB (suppliers db) (customers db) ps (next_product_id db)
       (sales db) (sale_items db).

(** A nullable foreign key is satisfied by NULL or by an existing row. *)
Definition fk_ok {V} (ref : option Z) (table : gmap Z V) : bool :=
  match ref with
  | None => true
  | Some k => bool_decide (is_Some (table !! k))
  end.

(** The range of [Column(Integer)], a signed 32-bit integer. *)
Definition int_min : Z := -2147483648.
Definition int_max : Z := 2147483647.

(** The value can be written to an integer column. *)
Definition fits (n : Z) : bool := (int_min <=? n) && (n <=? int_max).

(** The same for a nullable column: NULL can always be written. *)
Definition fits_null (n : option Z) : bool :=
  match n with
  | None => true
  | Some k => fits k
  end.

(** The same for a reference to a row of [table].  The key of a stored row
    is the value of an integer column, so it fits one. *)
Definition ref_fits {V} (ref : option Z) (table : gmap Z V) : bool :=
  match ref with
  | None => true
  | Some k => fits k || bool_decide (is_Some (table !! k))
  end.

(* ===================================================================== *)
(** ** Request and response schemas (the Pydantic models)                 *)
(* ===================================================================== *)

Module ProductCreate.
Record t := mk {
  name : string;
  sku : string;
  unit_price_cents : Z;
  quantity_available : Z;
  reorder_level : option Z;
  supplier_id : option Z
}.
End ProductCreate.

(** Every field is optional.  [None] is a field the request does not
    carry, [Some None] a field sent as [null], [Some (Some v)] a field sent
    with value [v]: [model_dump(exclude_unset=True)] keeps the last two. *)
Module ProductUpdate.
Record t := mk {
  name : option (option string);
  sku : option (option string);
  unit_price_cents : option (option Z);
  quantity_available : option (option Z);
  reorder_level : option (option Z);
  supplier_id : option (option Z)
}.
End ProductUpdate.

Module SaleItemBase.
Record t := mk { product_id : Z; quantity : Z }.
End SaleItemBase.

Module SaleCreate.
Record t := mk { customer_id : option Z; items : list SaleItemBase.t }.
End SaleCreate.

(** [SaleRead]: the sale row with its line items. *)
Module SaleRead.
Record t := mk { sale : Sale.t; items : list SaleItem.t }.
End SaleRead.

Module SalesSummary.
Record t := mk {
  from_date : date;
  to_date : date;
  total_revenue_cents : Z;
  transaction_count : Z;
  average_order_value_cents : Z
}.
End SalesSummary.

(* ===================================================================== *)
(** ** Core service logic: [create_sale]                                  *)
(* ===================================================================== *)

(** One dictionary of [line_items_data]. *)
Module LineItem.
Record t := mk {
  product_id : Z;
  unit_price_cents : Z;
  quantity : Z;
  line_total_cents : Z
}.
End LineItem.

(** The three accumulators of the validation loop.  An entry of
    [products_to_update] refers to the session's [Product] object by its
    key: two entries for the same product are the same object. *)
Record sale_acc := mk_acc {
  products_to_update : list (Z * Z);
  line_items_data : list LineItem.t;
  subtotal_cents : Z
}.

Definition detail_empty_sale : string :=
  "Sale must contain at least one item.".

Definition detail_quantity (product_id : Z) : string :=
  "Item quantity must be positive: Product " +:+ str_int product_id.

Definition detail_not_found (product_id : Z) : string :=
  "Product not found: id " +:+ str_int product_id.

Definition detail_insufficient (p : Product.t) (requested available : Z)
  : string :=
  "Insufficient stock for " +:+ Product.name p +:+
  " (SKU: " +:+ Product.sku p +:+ "). " +:+
  "Requested: " +:+ str_int requested +:+
  ", Available: " +:+ str_int available.

(** The body of [for item in sale_data.items]. *)
Definition sale_step (db : DB) (acc : sale_acc) (item : SaleItemBase.t)
  : result sale_acc :=
  let pid := SaleItemBase.product_id item in
  let qty := SaleItemBase.quantity item in
  if qty <=? 0 then Raise (HTTPException 400 (detail_quantity pid))
  else
    match products db !! pid with
    | None => Raise (HTTPException 404 (detail_not_found pid))
    | Some product =>
      match Product.quantity_available product with
      | None => Raise (Unhandled TypeError)
      | Some available =>
        if available <? qty
        then Raise (HTTPException 400
                      (detail_insufficient product qty available))
        else
          let line_total := Product.unit_price_cents product * qty in
          Ok (mk_acc
                (products_to_update acc ++ [(pid, qty)])
                (line_items_data acc ++
                   [LineItem.mk pid (Product.unit_price_cents product)
                                qty line_total])
                (subtotal_cents acc + line_total))
      end
    end.

Fixpoint sale_loop (db : DB) (acc : sale_acc) (items : list SaleItemBase.t)
  : result sale_acc :=
  match items with
  | [] => Ok acc
  | item :: rest => acc' ← sale_step db acc item; sale_loop db acc' rest
  end.

(** [product.quantity_available -= quantity_sold]; the attribute holds an
    [int] here, the loop has compared it with the quantity. *)
Definition decrement (quantity_sold : Z) (p : Product.t) : Product.t :=
  Product.set_quantity_available
    ((λ q, q - quantity_sold) <$> Product.quantity_available p) p.

(** One turn of [for product, quantity_sold in products_to_update], on the
    object stored under the entry's key. *)
Definition sell (ps : gmap Z Product.t) (upd : Z * Z) : gmap Z Product.t :=
  alter (decrement upd.2) upd.1 ps.

(** [SaleItem(sale_id=new_sale.id, **item_data)], stored under [id]. *)
Definition to_sale_item (sale_id : Z) (id : Z) (d : LineItem.t) : SaleItem.t :=
  SaleItem.mk id sale_id (LineItem.product_id d) (LineItem.unit_price_cents d)
              (LineItem.quantity d) (LineItem.line_total_cents d).

(** The rows [items] become, numbered from [first]. *)
Fixpoint number_items (sale_id first : Z) (items : list LineItem.t)
  : list SaleItem.t :=
  match items with
  | [] => []
  | d :: rest => to_sale_item sale_id first d
                   :: number_items sale_id (first + 1) rest
  end.

(** [create_sale(db, sale_data)], run at clock reading [now].  On success
    it returns the new sale and the session's pending state. *)
Definition create_sale (now : datetime) (db : DB) (sale_data : SaleCreate.t)
  : result (Sale.t * DB) :=
  match SaleCreate.items sale_data with
  | [] => Raise (HTTPException 400 detail_empty_sale)
  | items =>
    acc ← sale_loop db (mk_acc [] [] 0) items;
    tax_cents ← match int_mul_TAX_RATE (subtotal_cents acc) with
                | Some t => Ok t
                | None => Raise (Unhandled OverflowError)
                end;
    let total_cents := subtotal_cents acc + tax_cents in
    (* db.add(new_sale); db.flush(): the INSERT of the sale row *)
    if negb (ref_fits (SaleCreate.customer_id sale_data) (customers db)
             && fits (subtotal_cents acc) && fits tax_cents
             && fits total_cents)
    then Raise (Unhandled DataError)
    else if negb (fk_ok (SaleCreate.customer_id sale_data) (customers db))
    then Raise (Unhandled IntegrityError)
    else
      let new_sale :=
        Sale.mk (Z.of_nat (length (sales db)) + 1)
                (SaleCreate.customer_id sale_data)
                (subtotal_cents acc) tax_cents total_cents now in
      let new_items :=
        number_items (Sale.id new_sale)
                     (Z.of_nat (length (sale_items db)) + 1)
                     (line_items_data acc) in
      Ok (new_sale,
          mkDB (suppliers db) (customers db)
               (foldl sell (products db) (products_to_update acc))
               (next_product_id db)
               (sales db ++ [new_sale])
               (sale_items db ++ new_items))
  end.

(** The [items] relationship of a sale. *)
Definition items_of (db : DB) (sale_id : Z) : list SaleItem.t :=
  filter (λ it, SaleItem.sale_id it = sale_id) (sale_items db).

(** The integer columns of a sale item that hold amounts can be written. *)
Definition item_fits (it : SaleItem.t) : bool :=
  fits (SaleItem.unit_price_cents it) && fits (SaleItem.quantity it)
  && fits (SaleItem.line_total_cents it).

(** The stock of row [i] of the pending state is the committed one, or can
    be written. *)
Definition stock_written (db : DB) (i : Z) (p : Product.t) : Prop :=
  Product.quantity_available <$> products db !! i
    = Some (Product.quantity_available p)
  ∨ fits_null (Product.quantity_available p) = true.

Global Instance stock_written_dec db i p : Decision (stock_written db i p).
Proof. unfold stock_written. apply _. Defined.

(** [db.commit()] after [create_sale]: the flush writes the sale items
    added to the session and the stock of every product whose stock has
    changed; the storage accepts them. *)
Definition sale_committed (db pending : DB) : bool :=
  forallb item_fits (drop (length (sale_items db)) (sale_items pending))
  && bool_decide (map_Forall (stock_written db) (products pending)).

(** [POST /api/sales]: commit on success, roll back on any exception. *)
Definition create_new_sale (now : datetime) (sale_data : SaleCreate.t)
    (db : DB) : response SaleRead.t * DB :=
  match create_sale now db sale_data with
  | Ok (new_sale, db') =>
      if sale_committed db db'
      then (Success (SaleRead.mk new_sale (items_of db' (Sale.id new_sale))),
            db')
      else (ServerError "An unexpected error occurred: " DataError, db)
  | Raise e => (respond "An unexpected error occurred: " (Raise e), db)
  end.

(* ===================================================================== *)
(** ** Product endpoints                                                  *)
(* ===================================================================== *)

(** A product row as an endpoint returns it: the key and the columns. *)
Definition product_row : Type := Z * Product.t.

(** Some row of [ps] carries the SKU [s]. *)
Definition sku_in_use (ps : gmap Z Product.t) (s : string) : bool :=
  existsb (λ r : product_row, bool_decide (Product.sku r.2 = s))
          (map_to_list ps).

(** The default of the [reorder_level] column. *)
Definition default_reorder_level : Z := 10.

(** [POST /api/products].  An attribute that holds [None] is left out of
    the INSERT and the column takes its default: a [reorder_level] sent as
    [null] is stored as 10 ([supplier_id] has no default and is stored as
    NULL). *)
Definition create_product (product : ProductCreate.t) (db : DB)
  : response product_row * DB :=
  if sku_in_use (products db) (ProductCreate.sku product)
  then (HTTPError 400 "Product with this SKU already exists", db)
  else
    let new_product :=
      Product.mk (ProductCreate.name product) (ProductCreate.sku product)
                 (ProductCreate.unit_price_cents product)
                 (Some (ProductCreate.quantity_available product))
                 (Some (default default_reorder_level
                                (ProductCreate.reorder_level product)))
                 (ProductCreate.supplier_id product) in
    (* db.add(new_product); db.commit() *)
    if negb (fits (Product.unit_price_cents new_product)
             && fits_null (Product.quantity_available new_product)
             && fits_null (Product.reorder_level new_product)
             && ref_fits (Product.supplier_id new_product) (suppliers db))
    then (ServerError "Error creating product: " DataError, db)
    else if negb (fk_ok (Product.supplier_id new_product) (suppliers db))
    then (ServerError "Error creating product: " IntegrityError, db)
    else
      let id := next_product_id db in
      (Success (id, new_product),
       mkDB (suppliers db) (customers db)
            (<[id := new_product]> (products db)) (id + 1)
            (sales db) (sale_items db)).

Section Listing.

(** The order the storage's collation puts names in. *)
Variable name_le : string → string → bool.

Definition by_name (x y : product_row) : Prop :=
  name_le (Product.name x.2) (Product.name y.2) = true.

Global Instance by_name_dec : RelDecision by_name :=
  λ x y, decide (name_le (Product.name x.2) (Product.name y.2) = true).

(** [GET /api/products]: [ORDER BY name LIMIT limit OFFSET skip]; the
    storage rejects a negative LIMIT or OFFSET. *)
Definition get_products (skip limit : Z) (db : DB)
  : response (list product_row) * DB :=
  if (skip <? 0) || (limit <? 0)
  then (ServerError "Error fetching products: " ProgrammingError, db)
  else
    (Success (take (Z.to_nat limit)
                (drop (Z.to_nat skip)
                   (merge_sort by_name (map_to_list (products db))))),
     db).

End Listing.

(** The default of the [limit] query parameter. *)
Definition default_limit : Z := 100.
(** The default of the [skip] query parameter. *)
Definition default_skip : Z := 0.

(** [GET /api/products/{product_id}]. *)
Definition get_product (product_id : Z) (db : DB)
  : response product_row * DB :=
  match products db !! product_id with
  | None => (HTTPError 404 "Product not found", db)
  | Some product => (Success (product_id, product), db)
  end.

(** The session's [Product] object: every attribute can hold [None]
    until a commit writes it to its column. *)
Module ProductObj.
Record t := mk {
  name : option string;
  sku : option string;
  unit_price_cents : option Z;
  quantity_available : option Z;
  reorder_level : option Z;
  supplier_id : option Z
}.

(** The object loaded from a row. *)
Definition of_row (p : Product.t) : t :=
  mk (Some (Product.name p)) (Some (Product.sku p))
     (Some (Product.unit_price_cents p)) (Product.quantity_available p)
     (Product.reorder_level p) (Product.supplier_id p).

(** The row written from an object; [None] when an attribute of a
    NOT NULL column holds [None]. *)
Definition to_row (o : t) : option Product.t :=
  n ← name o; s ← sku o; c ← unit_price_cents o;
  Some (Product.mk n s c (quantity_available o) (reorder_level o)
                   (supplier_id o)).
End ProductObj.

(** [setattr(product, key, value)] when [key] is in [update_data],
    nothing otherwise. *)
Definition patch {A} (u : option (option A)) (old : option A) : option A :=
  match u with
  | None => old
  | Some value => value
  end.

(** [for key, value in update_data.items(): setattr(product, key, value)]. *)
Definition set_attributes (u : ProductUpdate.t) (o : ProductObj.t)
  : ProductObj.t :=
  ProductObj.mk
    (patch (ProductUpdate.name u) (ProductObj.name o))
    (patch (ProductUpdate.sku u) (ProductObj.sku o))
    (patch (ProductUpdate.unit_price_cents u) (ProductObj.unit_price_cents o))
    (patch (ProductUpdate.quantity_available u)
           (ProductObj.quantity_available o))
    (patch (ProductUpdate.reorder_level u) (ProductObj.reorder_level o))
    (patch (ProductUpdate.supplier_id u) (ProductObj.supplier_id o)).

(** The UPDATE of a product row writes the columns whose value has
    changed.  Each changed integer column gets a value it can hold. *)
Definition update_fits (db : DB) (old new : Product.t) : bool :=
  (bool_decide (Product.unit_price_cents new = Product.unit_price_cents old)
   || fits (Product.unit_price_cents new))
  && (bool_decide (Product.quantity_available new
                   = Product.quantity_available old)
      || fits_null (Product.quantity_available new))
  && (bool_decide (Product.reorder_level new = Product.reorder_level old)
      || fits_null (Product.reorder_level new))
  && (bool_decide (Product.supplier_id new = Product.supplier_id old)
      || ref_fits (Product.supplier_id new) (suppliers db)).

(** A changed SKU is not in use and a changed supplier exists. *)
Definition update_keys_ok (db : DB) (old new : Product.t) : bool :=
  (bool_decide (Product.sku new = Product.sku old)
   || negb (sku_in_use (products db) (Product.sku new)))
  && (bool_decide (Product.supplier_id new = Product.supplier_id old)
      || fk_ok (Product.supplier_id new) (suppliers db)).

(** The UPDATE of one product row is accepted. *)
Definition update_accepted (db : DB) (old new : Product.t) : bool :=
  update_fits db old new && update_keys_ok db old new.

(** [db.commit()] of a patched product object: the state with the row
    written, or the error of the storage that refuses the UPDATE: NULL for
    a NOT NULL column, a value out of range, a SKU in use or a supplier
    that does not exist. *)
Definition commit_product (product_id : Z) (old : Product.t)
    (o : ProductObj.t) (db : DB) : result (Product.t * DB) :=
  match ProductObj.to_row o with
  | None => Raise (Unhandled IntegrityError)
  | Some new =>
    if negb (update_fits db old new) then Raise (Unhandled DataError)
    else if negb (update_keys_ok db old new)
    then Raise (Unhandled IntegrityError)
    else Ok (new, set_products (<[product_id := new]> (products db)) db)
  end.

(** [PUT /api/products/{product_id}]. *)
Definition update_product (product_id : Z) (product_update : ProductUpdate.t)
    (db : DB) : response product_row * DB :=
  match products db !! product_id with
  | None => (HTTPError 404 "Product not found", db)
  | Some product =>
    let obj := set_attributes product_update (ProductObj.of_row product) in
    match commit_product product_id product obj db with
    | Ok (product', db') => (Success (product_id, product'), db')
    | Raise e => (respond "Error updating product: " (Raise e), db)
    end
  end.

(** [DELETE /api/products/{product_id}]. *)
Definition delete_product (product_id : Z) (db : DB) : response unit * DB :=
  match products db !! product_id with
  | None => (HTTPError 404 "Product not found", db)
  | Some product =>
    if existsb (λ it, bool_decide (SaleItem.product_id it = product_id))
               (sale_items db)
    then (HTTPError 400
            "Cannot delete product, it is associated with existing sales.",
          db)
    else (Success (), set_products (delete product_id (products db)) db)
  end.

(* ===================================================================== *)
(** ** Report endpoints                                                   *)
(* ===================================================================== *)

(** [Sale.created_at >= from_datetime AND Sale.created_at <= to_datetime]. *)
Definition in_range (from_datetime to_datetime : datetime) (s : Sale.t)
  : bool :=
  (from_datetime <=? Sale.created_at s) && (Sale.created_at s <=? to_datetime).

Definition sum_list (l : list Z) : Z := foldr Z.add 0 l.

(** SQL [SUM]: NULL over no rows. *)
Definition sql_sum (l : list Z) : option Z :=
  match l with
  | [] => None
  | _ => Some (sum_list l)
  end.

(** [GET /api/reports/sales-summary]. *)
Definition get_sales_summary (from_date to_date : date) (db : DB)
  : response SalesSummary.t * DB :=
  let from_datetime := combine_min from_date in
  let to_datetime := combine_max to_date in
  let rows := filter (λ s, in_range from_datetime to_datetime s = true)
                     (sales db) in
  let summary_total_revenue_cents := sql_sum (Sale.total_cents <$> rows) in
  let summary_transaction_count := Z.of_nat (length rows) in
  let total_revenue_int := default 0 summary_total_revenue_cents in
  let tx_count_int := summary_transaction_count in
  let avg_order_value :=
    if 0 <? tx_count_int then total_revenue_int / tx_count_int else 0 in
  (Success (SalesSummary.mk from_date to_date total_revenue_int
                            tx_count_int avg_order_value),
   db).

(** SQL [a <= b]: not true when either side is NULL. *)
Definition sql_le (a b : option Z) : bool :=
  match a, b with
  | Some x, Some y => x <=? y
  | _, _ => false
  end.

(** Ascending order with NULL first, as the storage sorts. *)
Definition null_first_le (a b : option Z) : bool :=
  match a, b with
  | None, _ => true
  | Some _, None => false
  | Some x, Some y => x <=? y
  end.

Definition by_quantity (x y : product_row) : Prop :=
  null_first_le (Product.quantity_available x.2)
                (Product.quantity_available y.2) = true.

Global Instance by_quantity_dec : RelDecision by_quantity :=
  λ x y, decide (null_first_le (Product.quantity_available x.2)
                               (Product.quantity_available y.2) = true).

(** The WHERE clause of the low-stock report. *)
Definition low_stock (threshold : option Z) (r : product_row) : bool :=
  match threshold with
  | Some th => sql_le (Product.quantity_available r.2) (Some th)
  | None => sql_le (Product.quantity_available r.2)
                   (Product.reorder_level r.2)
  end.

(** [GET /api/reports/low-stock]. *)
Definition get_low_stock_report (threshold : option Z) (db : DB)
  : response (list product_row) * DB :=
  (Success (merge_sort by_quantity
              (filter (λ r, low_stock threshold r = true)
                      (map_to_list (products db)))),
   db).

(* ===================================================================== *)
(** ** Supplier and customer endpoints                                    *)
(* ===================================================================== *)

(** [POST /api/suppliers]. *)
Definition create_supplier (supplier : Supplier.t) (db : DB)
  : response (Z * Supplier.t) * DB :=
  let id := Z.of_nat (size (suppliers db)) + 1 in
  (Success (id, supplier),
   mkDB (<[id := supplier]> (suppliers db)) (customers db) (products db)
        (next_product_id db) (sales db) (sale_items db)).

(** Some customer carries the e-mail address [e]. *)
Definition email_in_use (cs : gmap Z Customer.t) (e : string) : bool :=
  existsb (λ r : Z * Customer.t, bool_decide (Customer.email r.2 = Some e))
          (map_to_list cs).

(** [POST /api/customers]: a non-empty e-mail address already in use is
    refused by the explicit check, an empty one by the storage's UNIQUE
    index. *)
Definition create_customer (customer : Customer.t) (db : DB)
  : response (Z * Customer.t) * DB :=
  match Customer.email customer with
  | Some e =>
    if email_in_use (customers db) e
    then if bool_decide (e = "")
         then (ServerError "Error creating customer: " IntegrityError, db)
         else (HTTPError 400 "Customer with this email already exists", db)
    else
      let id := Z.of_nat (size (customers db)) + 1 in
      (Success (id, customer),
       mkDB (suppliers db) (<[id := customer]> (customers db)) (products db)
            (next_product_id db) (sales db) (sale_items db))
  | None =>
      let id := Z.of_nat (size (customers db)) + 1 in
      (Success (id, customer),
       mkDB (suppliers db) (<[id := customer]> (customers db)) (products db)
            (next_product_id db) (sales db) (sale_items db))
  end.

(* ===================================================================== *)
(** ** Reachable states                                                   *)
(* ===================================================================== *)

(** One request that can write. *)
Inductive request :=
| CreateSupplier (supplier : Supplier.t)
| CreateCustomer (customer : Customer.t)
| CreateProduct (product : ProductCreate.t)
| UpdateProduct (product_id : Z) (product_update : ProductUpdate.t)
| DeleteProduct (product_id : Z)
| CreateSale (now : datetime) (sale_data : SaleCreate.t).

(** The state a request leaves. *)
Definition serve (rq : request) (db : DB) : DB :=
  match rq with
  | CreateSupplier s => (create_supplier s db).2
  | CreateCustomer c => (create_customer c db).2
  | CreateProduct p => (create_product p db).2
  | UpdateProduct i u => (update_product i u db).2
  | DeleteProduct i => (delete_product i db).2
  | CreateSale now sd => (create_new_sale now sd db).2
  end.

(** [db] is the state after some sequence of requests on the empty store. *)
Inductive reachable : DB → Prop :=
| reachable_empty : reachable empty_db
| reachable_serve rq db : reachable db → reachable (serve rq db).

(* ===================================================================== *)
(** ** Vocabulary of the statements                                       *)
(* ===================================================================== *)

(** The unit price of the referenced product times the quantity, read in
    the state the call starts from (0 for a product that does not exist). *)
Definition line_total (db : DB) (item : SaleItemBase.t) : Z :=
  match products db !! SaleItemBase.product_id item with
  | Some p => Product.unit_price_cents p * SaleItemBase.quantity item
  | None => 0
  end.

(** An item passes the three checks of the loop: positive quantity,
    existing product, enough stock. *)
Definition item_valid (db : DB) (item : SaleItemBase.t) : bool :=
  (0 <? SaleItemBase.quantity item)
  && match products db !! SaleItemBase.product_id item with
     | Some p =>
       match Product.quantity_available p with
       | Some available => SaleItemBase.quantity item <=? available
       | None => false
       end
     | None => false
     end.

(** The item asks for more than the stock of the product it refers to. *)
Definition exceeds_stock (db : DB) (item : SaleItemBase.t)
    (p : Product.t) (available : Z) : Prop :=
  products db !! SaleItemBase.product_id item = Some p
  ∧ Product.quantity_available p = Some available
  ∧ available < SaleItemBase.quantity item.

(** The entry of [products_to_update] an item becomes. *)
Definition to_update (item : SaleItemBase.t) : Z * Z :=
  (SaleItemBase.product_id item, SaleItemBase.quantity item).

(** The dictionary of [line_items_data] an item becomes. *)
Definition to_line_item (db : DB) (item : SaleItemBase.t) : LineItem.t :=
  LineItem.mk (SaleItemBase.product_id item)
    (from_option Product.unit_price_cents 0
       (products db !! SaleItemBase.product_id item))
    (SaleItemBase.quantity item) (line_total db item).

(** The storage can hold the row of a sale of the items of [sd], taxed
    [tax]: customer, subtotal, tax and total. *)
Definition sale_row_fits (db : DB) (sd : SaleCreate.t) (tax : Z) : bool :=
  let subtotal := sum_list (line_total db <$> SaleCreate.items sd) in
  ref_fits (SaleCreate.customer_id sd) (customers db)
  && fits subtotal && fits tax && fits (subtotal + tax).

(** The least non-negative amount whose tax, computed in binary64, is not
    the floor of 8% of it. *)
Definition tax_exact_bound : Z := 5254199565265587.

(** The product of a non-negative [int] and [TAX_RATE] as the Standard
    Library's specification of IEEE 754 arithmetic computes it, and the
    same value from [Float64], for comparison. *)
Definition spec_product (n : Z) : SpecFloat.spec_float :=
  SpecFloat.SFmul 53 1024 (SpecFloat.binary_normalize 53 1024 n 0 false)
    (SpecFloat.S754_finite false 5764607523034235 (-56)).

Definition model_product (n : Z) : SpecFloat.spec_float :=
  match Float64.of_int n ≫= λ a, Float64.mul a TAX_RATE with
  | Some f =>
    match Float64.man f with
    | Zpos m => SpecFloat.S754_finite (Float64.neg f) m (Float64.exp f)
    | _ => SpecFloat.S754_zero (Float64.neg f)
    end
  | None => SpecFloat.S754_infinity false
  end.

(** Total quantity the entries of [upds] take from product [i]. *)
Definition sold (i : Z) (upds : list (Z * Z)) : Z :=
  sum_list (snd <$> filter (λ u, u.1 = i) upds).

(** The storage can hold the sale item of each of [items]: the unit price
    of its product, its quantity and its line total. *)
Definition sale_lines_fit (db : DB) (items : list SaleItemBase.t) : Prop :=
  Forall (λ it, ∀ p,
            products db !! SaleItemBase.product_id it = Some p →
            fits (Product.unit_price_cents p) = true
            ∧ fits (SaleItemBase.quantity it) = true
            ∧ fits (line_total db it) = true) items.

(** The storage can hold the stock that is left of each product [items]
    take from. *)
Definition stock_fits (db : DB) (items : list SaleItemBase.t) : Prop :=
  ∀ i p a, products db !! i = Some p →
           Product.quantity_available p = Some a →
           sold i (to_update <$> items) ≠ 0 →
           fits (a - sold i (to_update <$> items)) = true.

(** No product has a negative stock. *)
Definition stock_nonneg (db : DB) : Prop :=
  ∀ i p a, products db !! i = Some p →
           Product.quantity_available p = Some a → 0 ≤ a.

(** The sale was created on a day from [from_date] to [to_date]. *)
Definition on_days (from_date to_date : date) (s : Sale.t) : Prop :=
  from_date ≤ date_of (Sale.created_at s) ≤ to_date.

Global Instance on_days_dec f t s : Decision (on_days f t s).
Proof. unfold on_days. apply _. Defined.

(** A product is low on stock: at or below the threshold when one is given,
    at or below its own reorder level otherwise. *)
Definition is_low (threshold : option Z) (p : Product.t) : Prop :=
  match threshold with
  | Some th => ∃ a, Product.quantity_available p = Some a ∧ a ≤ th
  | None => ∃ a r, Product.quantity_available p = Some a
                   ∧ Product.reorder_level p = Some r ∧ a ≤ r
  end.

(** Row [x] has no more stock than row [y]. *)
Definition stock_le (x y : product_row) : Prop :=
  ∃ a b, Product.quantity_available x.2 = Some a
         ∧ Product.quantity_available y.2 = Some b ∧ a ≤ b.

(** The attribute after an update is the request's value when the request
    carries the field, and the old value otherwise. *)
Definition merged {A} (u : option (option A)) (old new : option A) : Prop :=
  match u with
  | Some value => new = value
  | None => new = old
  end.

(* ===================================================================== *)
(** ** Sample data                                                        *)
(* ===================================================================== *)

Module Sample.

Definition widget : Product.t :=
  Product.mk "Widget" "W-1" 1000 (Some 5) (Some 10) None.
Definition gadget : Product.t :=
  Product.mk "Gadget" "G-1" 250 (Some 40) (Some 10) None.
(** A product priced at 20 million: with the tax a single one exceeds
    what the [total_cents] column can hold. *)
Definition jewel : Product.t :=
  Product.mk "Jewel" "J-1" 2000000000 (Some 1) (Some 0) None.

Definition shop : DB :=
  mkDB ∅ ∅ (<[1 := widget]> (<[2 := gadget]> (<[3 := jewel]> ∅))) 4 [] [].

Definition item (product_id quantity : Z) : SaleItemBase.t :=
  SaleItemBase.mk product_id quantity.

Definition order (items : list SaleItemBase.t) : SaleCreate.t :=
  SaleCreate.mk None items.

(** A request that carries no field. *)
Definition no_change : ProductUpdate.t :=
  ProductUpdate.mk None None None None None None.

(** A request that carries [quantity_available] only. *)
Definition restock (q : Z) : ProductUpdate.t :=
  ProductUpdate.mk None None None (Some (Some q)) None None.

(** A request that carries [sku] only. *)
Definition relabel (s : string) : ProductUpdate.t :=
  ProductUpdate.mk None (Some (Some s)) None None None None.

Definition new_product (q : Z) : ProductCreate.t :=
  ProductCreate.mk "Widget" "W-1" 1000 q (Some 10) None.

End Sample.

(* ===================================================================== *)
(** ** The other listings                                                 *)
(* ===================================================================== *)

(** [Sale.created_at.desc()]: [x] is listed no later than [y]. *)
Definition newest_first (x y : Sale.t) : Prop :=
  Sale.created_at y ≤ Sale.created_at x.

Global Instance newest_first_dec : RelDecision newest_first :=
  λ x y, decide (Sale.created_at y ≤ Sale.created_at x).

(** [GET /api/sales]: [ORDER BY created_at DESC LIMIT limit OFFSET skip],
    each sale with its line items. *)
Definition get_sales (skip limit : Z) (db : DB)
  : response (list SaleRead.t) * DB :=
  if (skip <? 0) || (limit <? 0)
  then (ServerError "Error fetching sales: " ProgrammingError, db)
  else
    (Success ((λ s, SaleRead.mk s (items_of db (Sale.id s)))
              <$> take (Z.to_nat limit)
                    (drop (Z.to_nat skip)
                       (merge_sort newest_first (sales db)))),
     db).

Section PartyListing.

(** The order the storage's collation puts names in. *)
Variable name_le : string → string → bool.

Definition by_supplier_name (x y : Z * Supplier.t) : Prop :=
  name_le (Supplier.name x.2) (Supplier.name y.2) = true.

Global Instance by_supplier_name_dec : RelDecision by_supplier_name :=
  λ x y, decide (name_le (Supplier.name x.2) (Supplier.name y.2) = true).

(** [GET /api/suppliers]. *)
Definition get_suppliers (skip limit : Z) (db : DB)
  : response (list (Z * Supplier.t)) * DB :=
  if (skip <? 0) || (limit <? 0)
  then (ServerError "Error fetching suppliers: " ProgrammingError, db)
  else
    (Success (take (Z.to_nat limit)
                (drop (Z.to_nat skip)
                   (merge_sort by_supplier_name
                               (map_to_list (suppliers db))))),
     db).

Definition by_customer_name (x y : Z * Customer.t) : Prop :=
  name_le (Customer.name x.2) (Customer.name y.2) = true.

Global Instance by_customer_name_dec : RelDecision by_customer_name :=
  λ x y, decide (name_le (Customer.name x.2) (Customer.name y.2) = true).

(** [GET /api/customers]. *)
Definition get_customers (skip limit : Z) (db : DB)
  : response (list (Z * Customer.t)) * DB :=
  if (skip <? 0) || (limit <? 0)
  then (ServerError "Error fetching customers: " ProgrammingError, db)
  else
    (Success (take (Z.to_nat limit)
                (drop (Z.to_nat skip)
                   (merge_sort by_customer_name
                               (map_to_list (customers db))))),
     db).

End PartyListing.

(* ===================================================================== *)
(** ** Consistency of the store                                           *)
(* ===================================================================== *)

(** The keys of a table that is never deleted from are 1 to its size. *)
Definition dense {V} (table : gmap Z V) : Prop :=
  ∀ k, is_Some (table !! k) ↔ 1 ≤ k ≤ Z.of_nat (size table).

(** No stored product has an id the counter can still hand out. *)
Definition ids_below_counter (db : DB) : Prop :=
  ∀ i, is_Some (products db !! i) → i < next_product_id db.

(** No two products carry the same SKU. *)
Definition sku_unique (db : DB) : Prop :=
  ∀ i j p q, products db !! i = Some p → products db !! j = Some q →
             Product.sku p = Product.sku q → i = j.

(** No two customers carry the same e-mail address. *)
Definition email_unique (db : DB) : Prop :=
  ∀ i j c d e, customers db !! i = Some c → customers db !! j = Some d →
               Customer.email c = Some e → Customer.email d = Some e →
               i = j.

(** The sale at position [k] of the ledger has id [k + 1]. *)
Definition sales_numbered (db : DB) : Prop :=
  ∀ k s, sales db !! k = Some s → Sale.id s = Z.of_nat k + 1.

(** Every foreign key refers to a stored row. *)
Definition references_resolve (db : DB) : Prop :=
  (∀ it, it ∈ sale_items db →
         is_Some (products db !! SaleItem.product_id it)
         ∧ ∃ s, s ∈ sales db ∧ Sale.id s = SaleItem.sale_id it)
  ∧ (∀ i p k, products db !! i = Some p → Product.supplier_id p = Some k →
              is_Some (suppliers db !! k))
  ∧ (∀ s k, s ∈ sales db → Sale.customer_id s = Some k →
            is_Some (customers db !! k)).

(** Every line item is priced consistently: its line total is its unit
    price times its quantity, and its quantity is positive. *)
Definition items_priced (db : DB) : Prop :=
  ∀ it, it ∈ sale_items db →
        SaleItem.line_total_cents it
          = SaleItem.unit_price_cents it * SaleItem.quantity it
        ∧ 0 < SaleItem.quantity it.

(** Every sale totals its own line items. *)
Definition sales_balanced (db : DB) : Prop :=
  ∀ s, s ∈ sales db →
       Sale.subtotal_cents s
         = sum_list (SaleItem.line_total_cents <$> items_of db (Sale.id s))
       ∧ Sale.total_cents s = Sale.subtotal_cents s + Sale.tax_cents s.

Record consistent (db : DB) : Prop := mk_consistent {
  suppliers_dense : dense (suppliers db);
  customers_dense : dense (customers db);
  products_below_counter : ids_below_counter db;
  products_sku_unique : sku_unique db;
  customers_email_unique : email_unique db;
  ledger_numbered : sales_numbered db;
  foreign_keys : references_resolve db;
  ledger_priced : items_priced db;
  ledger_balanced : sales_balanced db
}.

(** The state a sequence of requests leaves, served in order. *)
Definition serve_all (rqs : list request) (db : DB) : DB :=
  foldl (λ d rq, serve rq d) db rqs.

(** States reached from the empty store, and the requests that lead to
    them. *)
Module Scenario.

Definition gadget_request : ProductCreate.t :=
  ProductCreate.mk "Gadget" "G-1" 250 40 (Some 10) None.

(** A second product under the SKU of the widget. *)
Definition widget_again : ProductCreate.t :=
  ProductCreate.mk "Widget, boxed" "W-1" 1200 7 (Some 10) None.

(** Two products are created; a third creation under the SKU of the first
    and an update of the second to that SKU follow. *)
Definition catalogue : DB :=
  serve_all [CreateProduct (Sample.new_product 5);
             CreateProduct gadget_request;
             CreateProduct widget_again;
             UpdateProduct 2 (Sample.relabel "W-1")] empty_db.

(** A product sent without a reorder level, and the row it becomes. *)
Definition lamp_request : ProductCreate.t :=
  ProductCreate.mk "Lamp" "L-1" 4500 12 None None.
Definition lamp : Product.t :=
  Product.mk "Lamp" "L-1" 4500 (Some 12) (Some 10) None.

Definition ada : Customer.t :=
  Customer.mk "Ada" None (Some "ada@example.org").
Definition bob : Customer.t :=
  Customer.mk "Bob" None (Some "bob@example.org").
(** Another customer under the address of Ada. *)
Definition ada_again : Customer.t :=
  Customer.mk "Ada L." (Some "555-0100") (Some "ada@example.org").
Definition cy : Customer.t := Customer.mk "Cy" None None.
Definition di : Customer.t := Customer.mk "Di" None None.

(** Two customers with an address, a third under the address of the
    first, and two without an address. *)
Definition clients : DB :=
  serve_all [CreateCustomer ada; CreateCustomer bob;
             CreateCustomer ada_again;
             CreateCustomer cy; CreateCustomer di] empty_db.

Definition acme : Supplier.t :=
  Supplier.mk "Acme" None None None None.

(** A supplier, a customer, a product of the supplier and a sale of it to
    the customer. *)
Definition trading : DB :=
  serve_all [CreateSupplier acme; CreateCustomer ada;
             CreateProduct
               (ProductCreate.mk "Widget" "W-1" 1000 5 None (Some 1));
             CreateSale 0 (SaleCreate.mk (Some 1) [Sample.item 1 3])]
            empty_db.

(** Three sales from the sample shop: one on day 0, one in the last
    microsecond of day 1 and one in the first microsecond of day 2. *)
Definition week : DB :=
  serve_all [CreateSale 100 (Sample.order [Sample.item 1 1]);
             CreateSale (2 * usec_per_day - 1)
                        (Sample.order [Sample.item 2 2]);
             CreateSale (2 * usec_per_day)
                        (Sample.order [Sample.item 2 3])]
            Sample.shop.

End Scenario.

(** Product [i] is stored and some sale item refers to it. *)
Definition sold_product (i : Z) (db : DB) : Prop :=
  is_Some (products db !! i)
  ∧ ∃ it, it ∈ sale_items db ∧ SaleItem.product_id it = i.

(** The sale item [it], of sale [sale_id], records the requested item
    [req] at the price its product has in [db]. *)
Definition records (db : DB) (sale_id : Z) (it : SaleItem.t)
    (req : SaleItemBase.t) : Prop :=
  SaleItem.sale_id it = sale_id
  ∧ SaleItem.product_id it = SaleItemBase.product_id req
  ∧ SaleItem.quantity it = SaleItemBase.quantity req
  ∧ ∃ p, products db !! SaleItemBase.product_id req = Some p
         ∧ SaleItem.unit_price_cents it = Product.unit_price_cents p
         ∧ SaleItem.line_total_cents it
           = Product.unit_price_cents p * SaleItemBase.quantity req.

(** The rows of [sale_items] a successful call adds for [items]. *)
Definition new_sale_items (db : DB) (items : list SaleItemBase.t)
  : list SaleItem.t :=
  number_items (Z.of_nat (length (sales db)) + 1)
               (Z.of_nat (length (sale_items db)) + 1)
               (to_line_item db <$> items).

(** The row a creation request asks for: its fields, with the default of
    the column for a reorder level sent as [null]. *)
Definition requested_product (pc : ProductCreate.t) : Product.t :=
  Product.mk (ProductCreate.name pc) (ProductCreate.sku pc)
             (ProductCreate.unit_price_cents pc)
             (Some (ProductCreate.quantity_available pc))
             (Some (match ProductCreate.reorder_level pc with
                    | Some level => level
                    | None => 10
                    end))
             (ProductCreate.supplier_id pc).

(** No two stored products have names the order [name_le] ranks
    equal. *)
Definition no_name_ties (name_le : string → string → bool) (db : DB)
  : Prop :=
  ∀ i j p q, products db !! i = Some p → products db !! j = Some q →
             name_le (Product.name p) (Product.name q) = true →
             name_le (Product.name q) (Product.name p) = true →
             i = j.

(** A request that sets [quantity_available] to [null] and carries nothing
    else. *)
Definition clear_stock : ProductUpdate.t :=
  ProductUpdate.mk None None None (Some None) None None.

(** [int()] of the exact product of an amount and 8/100: the quotient
    rounded toward zero. *)
Definition exact_tax (n : Z) : Z := Z.quot (n * 8) 100.

(* ===================================================================== *)
(** * Properties                                                          *)
(* ===================================================================== *)

(** ** The tax computation: binary64 against exact arithmetic *)

(** [TAX_RATE] is a normalised binary64 within half a unit in the last
    place of 8/100. *)
Lemma TAX_RATE_nearest :
  2 ^ 52 ≤ Float64.man TAX_RATE < 2 ^ 53
  ∧ Z.abs (100 * Float64.man TAX_RATE - 8 * 2 ^ 56) * 2 ≤ 100.
Proof. vm_compute. split; [split|]; congruence. Qed.

(** On amounts of every size that matters here the model of binary64
    agrees with the Standard Library's specification. *)
Example Float64_agrees_with_SpecFloat :
  Forall (λ n, model_product n = spec_product n)
    [0; 12; 13; 3000; 4750; 123456789; 5254199565265587; 8000000000000012;
     2 ^ 53 + 1; 2 ^ 53 + 3; 99999999999999999;
     2 ^ 80 + 12345678901234567].
Proof. repeat constructor. Qed.

(** Rounding never goes below the truncated quotient and moves the value
    by at most half a unit. *)
Lemma round_shift_bounds n k :
  0 ≤ n → 0 < k →
  n / 2 ^ k ≤ Float64.round_shift n k ∧
  2 * (Float64.round_shift n k * 2 ^ k) ≤ 2 * n + 2 ^ k.
Proof.
  intros Hn Hk. unfold Float64.round_shift.
  assert (HP : 2 ^ k = 2 * 2 ^ (k - 1)).
  { rewrite <- Z.pow_succ_r by lia. f_equal. lia. }
  assert (Hh : 0 < 2 ^ (k - 1)) by (apply Z.pow_pos_nonneg; lia).
  pose proof (Z.div_mod n (2 ^ k) ltac:(lia)) as Hdm.
  pose proof (Z.mod_pos_bound n (2 ^ k) ltac:(lia)) as Hr.
  set (q := n / 2 ^ k) in *. set (r := n mod 2 ^ k) in *.
  set (h := 2 ^ (k - 1)) in *. set (P := 2 ^ k) in *.
  destruct (Z.ltb_spec r h); [nia|].
  destruct (Z.ltb_spec h r); [nia|].
  destruct (Z.even q); nia.
Qed.

Lemma digits_le n b : 0 ≤ b → 0 ≤ n < 2 ^ b → Float64.digits n ≤ b.
Proof.
  intros Hb [Hn Hlt]. unfold Float64.digits.
  destruct (Z.eqb_spec n 0); [lia|].
  assert (Z.log2 n < b) by (apply Z.log2_lt_pow2; lia). lia.
Qed.

Lemma of_int_exact n :
  0 ≤ n < 2 ^ 53 → Float64.of_int n = Some (Float64.mk false n 0).
Proof.
  intros Hn. unfold Float64.of_int, Float64.normalize.
  pose proof (digits_le n 53 ltac:(lia) Hn) as Hd.
  rewrite Z.abs_eq by lia.
  replace (n <? 0) with false by (symmetry; apply Z.ltb_ge; lia).
  unfold Float64.prec, Float64.emax.
  replace (0 <? Float64.digits n - 53) with false by (symmetry; apply Z.ltb_ge; lia).
  replace (1024 <? Float64.digits n + 0) with false by (symmetry; apply Z.ltb_ge; lia).
  done.
Qed.

(** Below [tax_exact_bound] the floating-point product truncates to the
    exact floor of 8% of the amount. *)
Lemma tax_exact_below s :
  0 ≤ s < tax_exact_bound → int_mul_TAX_RATE s = Some (s * 8 / 100).
Proof.
  unfold tax_exact_bound. intros Hs. unfold int_mul_TAX_RATE.
  rewrite of_int_exact by (change (2 ^ 53) with 9007199254740992; lia).
  cbn [mbind option_bind]. unfold Float64.mul, TAX_RATE.
  cbn [Float64.neg Float64.man Float64.exp xorb].
  set (M := 5764607523034235). set (N := s * M).
  assert (HN : 0 ≤ N) by (unfold N, M; lia).
  assert (Hq : s * 8 / 100 = 2 * s / 25).
  { replace (s * 8) with (4 * (2 * s)) by lia. change 100 with (4 * 25).
    apply Z.div_mul_cancel_l; lia. }
  pose proof (Z.div_mod (2 * s) 25 ltac:(lia)) as Hdm.
  pose proof (Z.mod_pos_bound (2 * s) 25 ltac:(lia)) as Ht.
  set (q := 2 * s / 25) in *. set (t := (2 * s) mod 25) in *.
  assert (H52 : 2 ^ 52 = 4503599627370496) by reflexivity.
  assert (H56 : 2 ^ 56 = 72057594037927936) by reflexivity.
  assert (HNq : 25 * N = (25 * q + t) * 2 ^ 56 + 3 * s).
  { unfold N, M. rewrite H56. lia. }
  (* the slack left for rounding, half a unit of at most 2^52 *)
  assert (Hslack : 2 * t * 2 ^ 56 + 6 * s + 25 * 2 ^ 52 < 50 * 2 ^ 56).
  { rewrite H56, H52. lia. }
  unfold Float64.normalize, Float64.prec, Float64.emax.
  destruct (Z.ltb_spec 0 (Float64.digits N - 53)) as [Hk|Hk].
  - set (k := Float64.digits N - 53) in *.
    assert (Hk52 : k ≤ 52).
    { assert (Float64.digits N ≤ 105); [|lia].
      apply digits_le; [lia|]. split; [lia|].
      change (2 ^ 105) with 40564819207303340847894502572032.
      unfold N, M. lia. }
    destruct (round_shift_bounds N k HN Hk) as [Hlo Hhi].
    set (m := Float64.round_shift N k) in *.
    assert (HP : 2 ^ 56 = 2 ^ (56 - k) * 2 ^ k).
    { rewrite <- Z.pow_add_r by lia. f_equal. lia. }
    assert (HPk : 0 < 2 ^ k) by (apply Z.pow_pos_nonneg; lia).
    assert (HQk : 0 < 2 ^ (56 - k)) by (apply Z.pow_pos_nonneg; lia).
    assert (HPle : 2 ^ k ≤ 2 ^ 52) by (apply Z.pow_le_mono_r; lia).
    assert (Hm0 : 0 ≤ m).
    { etrans; [|apply Hlo]. apply Z.div_pos; lia. }
    assert (Hmlo : q * 2 ^ (56 - k) ≤ m).
    { etrans; [|apply Hlo]. apply Z.div_le_lower_bound; [lia|].
      rewrite H56 in *. nia. }
    assert (Hmhi : m < (q + 1) * 2 ^ (56 - k)).
    { rewrite H56, H52 in *.
      set (P := 2 ^ k) in *. set (Q := 2 ^ (56 - k)) in *. nia. }
    assert (Hdig : Float64.digits m ≤ 106).
    { apply digits_le; [lia|]. split; [lia|].
      assert (q < 2 ^ 50) by (change (2 ^ 50) with 1125899906842624; lia).
      assert (2 ^ (56 - k) ≤ 2 ^ 55) by (apply Z.pow_le_mono_r; lia).
      change (2 ^ 106) with (2 ^ 51 * 2 ^ 55).
      change (2 ^ 50) with 1125899906842624 in *.
      change (2 ^ 51) with 2251799813685248 in *.
      set (Q := 2 ^ (56 - k)) in *. set (Q' := 2 ^ 55) in *.
      assert (0 < Q') by (unfold Q'; lia). nia. }
    replace (1024 <? Float64.digits m + (0 + -56 + k)) with false
      by (symmetry; apply Z.ltb_ge; lia).
    cbn [mbind option_bind]. unfold Float64.to_int.
    cbn [Float64.neg Float64.man Float64.exp].
    replace (0 <=? 0 + -56 + k) with false by (symmetry; apply Z.leb_gt; lia).
    f_equal. rewrite Hq.
    replace (- (0 + -56 + k)) with (56 - k) by lia.
    symmetry. apply Z.div_unique with (r := m - q * 2 ^ (56 - k)); lia.
  - assert (HN53 : N < 2 ^ 53).
    { destruct (Z.lt_ge_cases N (2 ^ 53)) as [|Hge]; [done|].
      assert (53 < Float64.digits N); [|lia].
      unfold Float64.digits. destruct (Z.eqb_spec N 0); [lia|].
      assert (53 ≤ Z.log2 N); [|lia]. apply Z.log2_le_pow2; lia. }
    assert (Hdig : Float64.digits N ≤ 53) by lia.
    replace (1024 <? Float64.digits N + (0 + -56)) with false
      by (symmetry; apply Z.ltb_ge; lia).
    cbn [mbind option_bind]. unfold Float64.to_int.
    cbn [Float64.neg Float64.man Float64.exp].
    cbn [Z.leb Z.add Z.compare Z.opp].
    f_equal. rewrite Hq. rewrite H56 in *. rewrite H52 in *.
    symmetry. apply Z.div_unique with (r := N - q * 72057594037927936); lia.
Qed.

(** ** The validation loop of [create_sale] *)

Section SaleLoop.
Variable db : DB.

Lemma sale_step_valid acc it :
  item_valid db it = true →
  sale_step db acc it =
    Ok (mk_acc (products_to_update acc ++ [to_update it])
               (line_items_data acc ++ [to_line_item db it])
               (subtotal_cents acc + line_total db it)).
Proof.
  unfold item_valid, sale_step, to_line_item, line_total, to_update.
  intros [Hq Hp]%andb_prop.
  apply Z.ltb_lt in Hq.
  destruct (Z.leb_spec (SaleItemBase.quantity it) 0); [lia|].
  destruct (products db !! SaleItemBase.product_id it) as [p|]; [|done].
  destruct (Product.quantity_available p) as [a|]; [|done].
  apply Z.leb_le in Hp.
  destruct (Z.ltb_spec a (SaleItemBase.quantity it)); [lia|]. done.
Qed.

Lemma sale_step_Ok_inv acc it acc' :
  sale_step db acc it = Ok acc' → item_valid db it = true.
Proof.
  unfold item_valid, sale_step.
  destruct (Z.leb_spec (SaleItemBase.quantity it) 0); [done|].
  destruct (products db !! SaleItemBase.product_id it) as [p|]; [|done].
  destruct (Product.quantity_available p) as [a|]; [|done].
  destruct (Z.ltb_spec a (SaleItemBase.quantity it)); [done|].
  intros _. apply andb_true_intro. split; [apply Z.ltb_lt|apply Z.leb_le]; lia.
Qed.

Lemma sale_loop_valid items : ∀ acc,
  Forall (λ it, item_valid db it = true) items →
  sale_loop db acc items =
    Ok (mk_acc (products_to_update acc ++ (to_update <$> items))
               (line_items_data acc ++ (to_line_item db <$> items))
               (subtotal_cents acc + sum_list (line_total db <$> items))).
Proof.
  induction items as [|it items IH]; intros acc Hall.
  - cbn. rewrite !app_nil_r, Z.add_0_r. by destruct acc.
  - apply Forall_cons in Hall as [Hit Hall]. cbn [sale_loop].
    rewrite (sale_step_valid _ _ Hit). cbn -[sum_list].
    rewrite (IH _ Hall). cbn. rewrite <- !app_assoc. cbn.
    do 2 f_equal. unfold sum_list. lia.
Qed.

Lemma sale_loop_Ok_inv items : ∀ acc acc',
  sale_loop db acc items = Ok acc' →
  Forall (λ it, item_valid db it = true) items.
Proof.
  induction items as [|it items IH]; intros acc acc' H; [constructor|].
  cbn [sale_loop] in H.
  destruct (sale_step db acc it) as [acc1|e] eqn:Hstep; [|done].
  constructor; [by eapply sale_step_Ok_inv|]. by eapply IH.
Qed.


Lemma sale_step_nonpositive acc it :
  SaleItemBase.quantity it ≤ 0 →
  sale_step db acc it =
    Raise (HTTPException 400 (detail_quantity (SaleItemBase.product_id it))).
Proof.
  intros Hq. unfold sale_step.
  by destruct (Z.leb_spec (SaleItemBase.quantity it) 0); [|lia].
Qed.

Lemma sale_step_missing acc it :
  0 < SaleItemBase.quantity it →
  products db !! SaleItemBase.product_id it = None →
  sale_step db acc it =
    Raise (HTTPException 404 (detail_not_found (SaleItemBase.product_id it))).
Proof.
  intros Hq Hp. unfold sale_step. rewrite Hp.
  by destruct (Z.leb_spec (SaleItemBase.quantity it) 0); [lia|].
Qed.

Lemma sale_step_insufficient acc it p a :
  0 < SaleItemBase.quantity it →
  exceeds_stock db it p a →
  sale_step db acc it =
    Raise (HTTPException 400
             (detail_insufficient p (SaleItemBase.quantity it) a)).
Proof.
  intros Hq (Hp & Ha & Hlt). unfold sale_step. rewrite Hp, Ha.
  destruct (Z.leb_spec (SaleItemBase.quantity it) 0); [lia|].
  by destruct (Z.ltb_spec a (SaleItemBase.quantity it)); [|lia].
Qed.

(** The loop stops at the first item that raises. *)
Lemma sale_loop_raise pre it post e : ∀ acc,
  Forall (λ it, item_valid db it = true) pre →
  (∀ acc', sale_step db acc' it = Raise e) →
  sale_loop db acc (pre ++ it :: post) = Raise e.
Proof.
  induction pre as [|x pre IH]; intros acc Hall Hbad.
  - cbn [app sale_loop]. by rewrite Hbad.
  - apply Forall_cons in Hall as [Hx Hall]. cbn [app sale_loop].
    rewrite (sale_step_valid _ _ Hx). apply (IH _ Hall Hbad).
Qed.

End SaleLoop.

(** ** [create_sale] and [create_new_sale] *)

(** The sale row and the pending state a call builds once the loop has
    accepted every item and the tax is [tax]. *)
Lemma create_sale_valid now db sd tax :
  SaleCreate.items sd ≠ [] →
  Forall (λ it, item_valid db it = true) (SaleCreate.items sd) →
  int_mul_TAX_RATE (sum_list (line_total db <$> SaleCreate.items sd))
    = Some tax →
  fk_ok (SaleCreate.customer_id sd) (customers db) = true →
  sale_row_fits db sd tax = true →
  let subtotal := sum_list (line_total db <$> SaleCreate.items sd) in
  let sale := Sale.mk (Z.of_nat (length (sales db)) + 1)
                (SaleCreate.customer_id sd) subtotal tax (subtotal + tax)
                now in
  create_sale now db sd =
    Ok (sale,
        mkDB (suppliers db) (customers db)
             (foldl sell (products db) (to_update <$> SaleCreate.items sd))
             (next_product_id db) (sales db ++ [sale])
             (sale_items db ++
                number_items (Sale.id sale)
                  (Z.of_nat (length (sale_items db)) + 1)
                  (to_line_item db <$> SaleCreate.items sd))).
Proof.
  intros Hne Hall Htax Hfk Hfits. unfold create_sale.
  unfold sale_row_fits in Hfits.
  destruct (SaleCreate.items sd) as [|it items] eqn:Hitems; [done|].
  rewrite (sale_loop_valid db _ _ Hall).
  cbn [mbind result_bind products_to_update line_items_data subtotal_cents
       app].
  rewrite Z.add_0_l, Htax. cbn [mbind result_bind].
  rewrite Hfits, Hfk. done.
Qed.

Lemma create_sale_Ok_inv now db sd sale db' :
  create_sale now db sd = Ok (sale, db') →
  SaleCreate.items sd ≠ []
  ∧ Forall (λ it, item_valid db it = true) (SaleCreate.items sd)
  ∧ fk_ok (SaleCreate.customer_id sd) (customers db) = true
  ∧ int_mul_TAX_RATE (sum_list (line_total db <$> SaleCreate.items sd))
    = Some (Sale.tax_cents sale)
  ∧ sale_row_fits db sd (Sale.tax_cents sale) = true.
Proof.
  intros H. unfold create_sale in H. unfold sale_row_fits.
  destruct (SaleCreate.items sd) as [|it items] eqn:Hitems; [done|].
  destruct (sale_loop db (mk_acc [] [] 0) (it :: items)) as [acc|e] eqn:Hloop;
    [|done].
  pose proof (sale_loop_Ok_inv _ _ _ _ Hloop) as Hall.
  rewrite (sale_loop_valid db _ _ Hall) in Hloop.
  injection Hloop as <-.
  cbn [mbind result_bind products_to_update line_items_data subtotal_cents
       app] in H.
  rewrite Z.add_0_l in H.
  destruct (int_mul_TAX_RATE _) as [tax|] eqn:Htax; [|done].
  cbn [mbind result_bind] in H.
  destruct (ref_fits _ _ && _ && _ && _) eqn:Hfits; [|done].
  destruct (fk_ok _ _) eqn:Hfk; [|done].
  cbn [negb] in H. injection H as <- <-. done.
Qed.

(** A successful call is exactly what [create_sale_valid] describes. *)
Lemma create_sale_Ok_eq now db sd sale db' :
  create_sale now db sd = Ok (sale, db') →
  let subtotal := sum_list (line_total db <$> SaleCreate.items sd) in
  sale = Sale.mk (Z.of_nat (length (sales db)) + 1)
           (SaleCreate.customer_id sd) subtotal (Sale.tax_cents sale)
           (subtotal + Sale.tax_cents sale) now
  ∧ products db' = foldl sell (products db)
                     (to_update <$> SaleCreate.items sd).
Proof.
  intros H.
  destruct (create_sale_Ok_inv _ _ _ _ _ H)
    as (Hne & Hall & Hfk & Htax & Hfits).
  pose proof (create_sale_valid now db sd _ Hne Hall Htax Hfk Hfits) as Heq.
  cbv zeta in Heq. rewrite H in Heq. injection Heq as Hs Hdb.
  split; [by destruct sale; inversion Hs; subst|by rewrite Hdb].
Qed.

(** The endpoint commits what [create_sale] returns and rolls back
    whatever it raises. *)
Lemma create_new_sale_Success_inv now sd db r db' :
  create_new_sale now sd db = (Success r, db') →
  create_sale now db sd = Ok (SaleRead.sale r, db').
Proof.
  unfold create_new_sale.
  destruct (create_sale now db sd) as [[sale db1]|e].
  - destruct (sale_committed db db1); [|done]. intros [= <- <-]. done.
  - intros [= H _]. by destruct e.
Qed.

Lemma create_new_sale_Success_committed now sd db r db' :
  create_new_sale now sd db = (Success r, db') →
  sale_committed db db' = true.
Proof.
  unfold create_new_sale.
  destruct (create_sale now db sd) as [[sale db1]|e].
  - destruct (sale_committed db db1) eqn:Hc; [|done]. by intros [= <- <-].
  - intros [= H _]. by destruct e.
Qed.

(** What the endpoint answers when [create_sale] returns. *)
Lemma create_new_sale_Ok now sd db sale db' :
  create_sale now db sd = Ok (sale, db') →
  sale_committed db db' = true →
  create_new_sale now sd db
    = (Success (SaleRead.mk sale (items_of db' (Sale.id sale))), db').
Proof. unfold create_new_sale. by intros -> ->. Qed.

Lemma create_new_sale_Raise now sd db e :
  create_sale now db sd = Raise e →
  create_new_sale now sd db
    = (respond "An unexpected error occurred: " (Raise e), db).
Proof. unfold create_new_sale. by intros ->. Qed.

Lemma create_new_sale_rollback now sd db r db' :
  create_new_sale now sd db = (r, db') →
  (∀ a, r ≠ Success a) → db' = db.
Proof.
  unfold create_new_sale.
  destruct (create_sale now db sd) as [[sale db1]|e].
  - destruct (sale_committed db db1); [|by intros [= _ <-] _].
    intros [= <- <-] Hne. by destruct (Hne _ eq_refl).
  - by intros [= _ <-] _.
Qed.

Lemma create_sale_first_offender now db sd pre it post e :
  SaleCreate.items sd = pre ++ it :: post →
  Forall (λ it, item_valid db it = true) pre →
  (∀ acc, sale_step db acc it = Raise e) →
  create_sale now db sd = Raise e.
Proof.
  intros Hitems Hall Hbad. unfold create_sale.
  destruct (SaleCreate.items sd) as [|x items] eqn:E.
  { by destruct pre. }
  rewrite Hitems. by rewrite (sale_loop_raise db pre it post e).
Qed.

(** ** The stock decrement *)

Lemma decrement_0 p : decrement 0 p = p.
Proof.
  destruct p as [n s c [q|] r sup]; unfold decrement; cbn; [|done].
  by rewrite Z.sub_0_r.
Qed.

Lemma decrement_decrement a b p :
  decrement b (decrement a p) = decrement (a + b) p.
Proof.
  destruct p as [n s c [q|] r sup]; unfold decrement; cbn; [|done].
  by replace (q - a - b) with (q - (a + b)) by lia.
Qed.

Lemma sold_cons u upds i :
  sold i (u :: upds) = (if decide (u.1 = i) then u.2 else 0) + sold i upds.
Proof.
  unfold sold. rewrite filter_cons. by case_decide.
Qed.

(** After the decrement loop a product has lost the sum of the quantities
    of the entries that refer to it, once per entry. *)
Lemma lookup_foldl_sell upds : ∀ (ps : gmap Z Product.t) i,
  foldl sell ps upds !! i = decrement (sold i upds) <$> ps !! i.
Proof.
  induction upds as [|u upds IH]; intros ps i.
  - cbn. destruct (ps !! i) as [p|]; cbn; [|done].
    by rewrite (decrement_0 p).
  - cbn [foldl]. rewrite IH, sold_cons. unfold sell.
    rewrite lookup_alter. destruct (decide (u.1 = i)) as [Hk|Hk].
    + subst i. destruct (ps !! u.1) as [p|]; cbn; [|done].
      by rewrite decrement_decrement.
    + by rewrite Z.add_0_l.
Qed.

(** ** The commit of a sale *)

Lemma forallb_item_fits_number_items sid ds : ∀ first,
  forallb item_fits (number_items sid first ds)
  = forallb (λ d, fits (LineItem.unit_price_cents d)
                  && fits (LineItem.quantity d)
                  && fits (LineItem.line_total_cents d)) ds.
Proof.
  induction ds as [|d ds IH]; intros first; [done|].
  cbn [number_items forallb]. by rewrite IH.
Qed.

(** The commit of the pending state of a sale is accepted when every new
    sale item and every changed stock fits its columns. *)
Lemma sale_committed_pending db sid (items : list SaleItemBase.t)
    sup cus nid ledger :
  Forall (λ it, item_valid db it = true) items →
  sale_committed db
    (mkDB sup cus (foldl sell (products db) (to_update <$> items)) nid ledger
          (sale_items db ++
             number_items sid (Z.of_nat (length (sale_items db)) + 1)
                          (to_line_item db <$> items))) = true
  ↔ sale_lines_fit db items ∧ stock_fits db items.
Proof.
  intros Hall. unfold sale_committed. cbn [sale_items products].
  rewrite drop_app_length, forallb_item_fits_number_items.
  rewrite andb_true_iff, bool_decide_eq_true, map_Forall_lookup.
  match goal with
  | |- ?P1 ∧ ?P2 ↔ ?Q1 ∧ ?Q2 => enough ((P1 ↔ Q1) ∧ (P2 ↔ Q2)) by tauto
  end.
  split.
  - unfold sale_lines_fit. rewrite forallb_forall, Forall_forall.
    rewrite Forall_forall in Hall.
    split.
    + intros H it Hin p Hp.
      assert (Hd := H (to_line_item db it)
                      ltac:(apply list_elem_of_In, list_elem_of_fmap; eauto)).
      unfold to_line_item in Hd.
      cbn [LineItem.unit_price_cents LineItem.quantity
           LineItem.line_total_cents] in Hd.
      rewrite Hp in Hd. cbn [from_option] in Hd.
      by apply andb_prop in Hd as [[? ?]%andb_prop ?].
    + intros H d [it [-> Hin]]%list_elem_of_In%list_elem_of_fmap.
      specialize (Hall it Hin). unfold item_valid in Hall.
      apply andb_prop in Hall as [_ Hall].
      unfold to_line_item. cbn.
      destruct (products db !! SaleItemBase.product_id it) as [p|] eqn:Hp;
        [|done].
      cbn [from_option]. destruct (H it Hin p Hp) as (-> & -> & ->). done.
  - unfold stock_fits, stock_written. split.
    + intros H i p a Hp Ha Hs.
      specialize (H i (decrement (sold i (to_update <$> items)) p)).
      rewrite lookup_foldl_sell, Hp in H. specialize (H eq_refl).
      unfold decrement in H. destruct p as [n s c q rl sp].
      cbn in *. subst q. cbn in H. destruct H as [H|H]; [|done].
      injection H as H. lia.
    + intros H i p'. rewrite lookup_foldl_sell.
      destruct (products db !! i) as [p|] eqn:Hp; [|done].
      intros [= <-]. unfold decrement. destruct p as [n s c [a|] rl sp];
        cbn; [|by left].
      destruct (decide (sold i (to_update <$> items) = 0)) as [->|Hs].
      * left. by rewrite Z.sub_0_r.
      * right. exact (H i _ a Hp eq_refl Hs).
Qed.

(** ** Totals of a sale *)

(** C1. Every successful sale has a subtotal equal to the sum, over the
    items of the request, of the referenced product's unit price at the
    time of the call times the quantity, and a total equal to subtotal plus
    tax.  In particular one item of quantity 3 on a product with stock 5
    and unit price 1000 succeeds with subtotal 3000, tax 240, total 3240,
    and leaves the product with stock 2. *)
Theorem create_sale_totals :
  (∀ now sd db r db',
     create_new_sale now sd db = (Success r, db') →
     Sale.subtotal_cents (SaleRead.sale r)
       = sum_list (line_total db <$> SaleCreate.items sd)
     ∧ Sale.total_cents (SaleRead.sale r)
       = Sale.subtotal_cents (SaleRead.sale r)
         + Sale.tax_cents (SaleRead.sale r))
  ∧ (∀ now db a p,
       products db !! a = Some p →
       Product.quantity_available p = Some 5 →
       Product.unit_price_cents p = 1000 →
       ∃ r db',
         create_new_sale now (SaleCreate.mk None [SaleItemBase.mk a 3]) db
           = (Success r, db')
         ∧ Sale.subtotal_cents (SaleRead.sale r) = 3000
         ∧ Sale.tax_cents (SaleRead.sale r) = 240
         ∧ Sale.total_cents (SaleRead.sale r) = 3240
         ∧ Product.quantity_available <$> products db' !! a
           = Some (Some 2)).
Proof.
  split.
  - intros now sd db r db' H%create_new_sale_Success_inv.
    destruct (create_sale_Ok_eq _ _ _ _ _ H) as [Hsale _].
    cbv zeta in Hsale. rewrite Hsale. by cbn.
  - intros now db a p Hp Hq Hprice.
    set (sd := SaleCreate.mk None [SaleItemBase.mk a 3]).
    assert (Hsub : sum_list (line_total db <$> SaleCreate.items sd) = 3000).
    { cbn. unfold line_total. cbn. rewrite Hp, Hprice. done. }
    assert (Hvalid : Forall (λ it, item_valid db it = true)
                       (SaleCreate.items sd)).
    { repeat constructor. unfold item_valid. cbn. by rewrite Hp, Hq. }
    assert (Htax : int_mul_TAX_RATE
                     (sum_list (line_total db <$> SaleCreate.items sd))
                   = Some 240).
    { rewrite Hsub. by vm_compute. }
    assert (Hfits : sale_row_fits db sd 240 = true).
    { unfold sale_row_fits. rewrite Hsub. reflexivity. }
    pose proof (create_sale_valid now db sd 240 ltac:(done) Hvalid Htax
                  eq_refl Hfits) as Hcs.
    cbv zeta in Hcs.
    rewrite (create_new_sale_Ok _ _ _ _ _ Hcs).
    2:{ apply (sale_committed_pending db _ (SaleCreate.items sd));
          [exact Hvalid|]. split.
        - repeat constructor; cbn in H; rewrite Hp in H;
            injection H as <-; unfold line_total; cbn;
            rewrite ?Hp, Hprice; reflexivity.
        - intros i p0 a0 Hp0 Ha0. unfold sd.
          cbn [SaleCreate.items fmap list_fmap]. rewrite sold_cons.
          unfold to_update. cbn [fst snd SaleItemBase.product_id
                                 SaleItemBase.quantity].
          destruct (decide (a = i)) as [<-|]; [intros _|done].
          rewrite Hp in Hp0. injection Hp0 as <-.
          rewrite Hq in Ha0. injection Ha0 as <-. reflexivity. }
    eexists _, _. split; [reflexivity|].
    cbn [SaleRead.sale Sale.subtotal_cents Sale.tax_cents Sale.total_cents
         products].
    rewrite Hsub. repeat split.
    rewrite lookup_foldl_sell, Hp. cbn. unfold decrement. rewrite Hq.
    cbn. rewrite decide_True by done. done.
Qed.

(** The scenario of C1 on the sample shop. *)
Lemma create_sale_totals_witness :
  ∃ r db',
    create_new_sale 0 (Sample.order [Sample.item 1 3]) Sample.shop
      = (Success r, db')
    ∧ Sale.subtotal_cents (SaleRead.sale r) = 3000
    ∧ Sale.tax_cents (SaleRead.sale r) = 240
    ∧ Sale.total_cents (SaleRead.sale r) = 3240
    ∧ Product.quantity_available <$> products db' !! 1 = Some (Some 2).
Proof.
  apply (proj2 create_sale_totals 0 Sample.shop 1 Sample.widget);
    reflexivity.
Defined.

(** ** The tax of a sale *)

Lemma fits_spec n : fits n = true ↔ int_min ≤ n ≤ int_max.
Proof. unfold fits. rewrite andb_true_iff, !Z.leb_le. done. Qed.

(** C3. For every successful sale with a non-negative subtotal the tax is
    the exact integer floor of 8% of the subtotal.  The subtotal of a sale
    the storage accepts is in the range of its column, below the amounts at
    which the floating-point product departs from the exact one. *)
Theorem create_sale_tax_floor now sd db r db' :
  create_new_sale now sd db = (Success r, db') →
  0 ≤ Sale.subtotal_cents (SaleRead.sale r) →
  Sale.tax_cents (SaleRead.sale r)
    = Sale.subtotal_cents (SaleRead.sale r) * 8 / 100.
Proof.
  intros H%create_new_sale_Success_inv Hpos.
  destruct (create_sale_Ok_inv _ _ _ _ _ H) as (_ & _ & _ & Htax & Hfits).
  destruct (create_sale_Ok_eq _ _ _ _ _ H) as [Hsale _].
  apply (f_equal Sale.subtotal_cents) in Hsale. cbn in Hsale.
  unfold sale_row_fits in Hfits. cbv zeta in Hfits.
  rewrite <- Hsale in Htax, Hfits.
  apply andb_prop in Hfits as [[[_ Hsub]%andb_prop _]%andb_prop _].
  apply fits_spec in Hsub. unfold int_max in Hsub.
  rewrite tax_exact_below in Htax by (unfold tax_exact_bound; lia).
  congruence.
Qed.

Lemma create_sale_tax_floor_witness :
  ∃ r db',
    create_new_sale 0 (Sample.order [Sample.item 1 3; Sample.item 2 7])
                    Sample.shop = (Success r, db')
    ∧ Sale.subtotal_cents (SaleRead.sale r) = 4750
    ∧ Sale.tax_cents (SaleRead.sale r) = 4750 * 8 / 100.
Proof.
  eexists _, _. split; [vm_compute; reflexivity|]. split; [reflexivity|].
  eapply (create_sale_tax_floor 0
            (Sample.order [Sample.item 1 3; Sample.item 2 7]) Sample.shop).
  - vm_compute. reflexivity.
  - vm_compute. congruence.
Defined.

(** The floating-point product itself is not the floor for every
    non-negative amount: at 5254199565265587 it is one more.  No column of
    the storage holds such an amount. *)
Remark int_mul_TAX_RATE_above_floor :
  int_mul_TAX_RATE tax_exact_bound = Some 420335965221247
  ∧ tax_exact_bound * 8 / 100 = 420335965221246
  ∧ int_max < tax_exact_bound.
Proof. by vm_compute. Qed.

(** A sale of the jewel of the sample shop has a subtotal and a tax the
    storage can hold and a total it cannot: the call is answered with
    status 500 and changes nothing. *)
Example create_sale_beyond_column :
  create_new_sale 0 (Sample.order [Sample.item 3 1]) Sample.shop
  = (ServerError "An unexpected error occurred: " DataError, Sample.shop).
Proof. vm_compute. reflexivity. Qed.

(** ** Rejected sales *)

(** C5. A sale without items is refused with status 400.  Otherwise the
    items are checked in the order of the request, and the first one that
    fails a check decides the answer: status 400 naming its product
    reference when its quantity is not positive, status 404 naming the
    missing id when its quantity is positive and its product does not
    exist.  Whenever the call does not succeed the state is unchanged. *)
Theorem create_sale_rejects now sd db :
  (SaleCreate.items sd = [] →
   create_new_sale now sd db = (HTTPError 400 detail_empty_sale, db))
  ∧ (∀ pre it post,
       SaleCreate.items sd = pre ++ it :: post →
       Forall (λ it, item_valid db it = true) pre →
       (SaleItemBase.quantity it ≤ 0 →
        create_new_sale now sd db
          = (HTTPError 400 (detail_quantity (SaleItemBase.product_id it)),
             db))
       ∧ (0 < SaleItemBase.quantity it →
          products db !! SaleItemBase.product_id it = None →
          create_new_sale now sd db
            = (HTTPError 404 (detail_not_found (SaleItemBase.product_id it)),
               db)))
  ∧ (∀ r db', create_new_sale now sd db = (r, db') →
              (∀ a, r ≠ Success a) → db' = db).
Proof.
  split; [|split].
  - intros Hnil. unfold create_new_sale, create_sale. by rewrite Hnil.
  - intros pre it post Hitems Hpre. split.
    + intros Hq.
      rewrite (create_new_sale_Raise _ _ _
                 (HTTPException 400
                    (detail_quantity (SaleItemBase.product_id it)))); [done|].
      eapply create_sale_first_offender; [done..|].
      intros acc. by apply sale_step_nonpositive.
    + intros Hq Hp.
      rewrite (create_new_sale_Raise _ _ _
                 (HTTPException 404
                    (detail_not_found (SaleItemBase.product_id it))));
        [done|].
      eapply create_sale_first_offender; [done..|].
      intros acc. by apply sale_step_missing.
  - apply create_new_sale_rollback.
Qed.

(** On the sample shop: a valid first item followed by a quantity of 0, and
    a valid first item followed by a product that does not exist. *)
Lemma create_sale_rejects_witness :
  create_new_sale 0 (Sample.order [Sample.item 1 2; Sample.item 2 0])
                  Sample.shop
    = (HTTPError 400 "Item quantity must be positive: Product 2",
       Sample.shop)
  ∧ create_new_sale 0 (Sample.order [Sample.item 1 2; Sample.item 9 1])
                    Sample.shop
    = (HTTPError 404 "Product not found: id 9", Sample.shop).
Proof.
  split.
  - apply (proj1 (proj1 (proj2 (create_sale_rejects 0
             (Sample.order [Sample.item 1 2; Sample.item 2 0]) Sample.shop))
             [Sample.item 1 2] (Sample.item 2 0) [] eq_refl
             ltac:(repeat constructor))).
    vm_compute. congruence.
  - apply (proj2 (proj1 (proj2 (create_sale_rejects 0
             (Sample.order [Sample.item 1 2; Sample.item 9 1]) Sample.shop))
             [Sample.item 1 2] (Sample.item 9 1) [] eq_refl
             ltac:(repeat constructor))).
    + reflexivity.
    + reflexivity.
Defined.

(** C4, as amended. A call in which some item asks for more than the stock
    of its product never succeeds and leaves the state unchanged; when that
    item has a positive quantity and every item before it passes the
    checks, the answer is status 400 with the message that carries the
    product's name, its SKU, the requested and the available quantity. *)
Theorem create_sale_insufficient_stock now sd db :
  (∀ it p a,
     it ∈ SaleCreate.items sd → exceeds_stock db it p a →
     ∃ e, create_new_sale now sd db = (e, db) ∧ ∀ r, e ≠ Success r)
  ∧ (∀ pre it post p a,
       SaleCreate.items sd = pre ++ it :: post →
       Forall (λ it, item_valid db it = true) pre →
       0 < SaleItemBase.quantity it →
       exceeds_stock db it p a →
       create_new_sale now sd db
         = (HTTPError 400
              (detail_insufficient p (SaleItemBase.quantity it) a),
            db)).
Proof.
  split.
  - intros it p a Hin (Hp & Ha & Hlt).
    destruct (create_new_sale now sd db) as [e db'] eqn:E.
    assert (∀ r, e ≠ Success r) as Hne.
    { intros r ->. apply create_new_sale_Success_inv in E.
      destruct (create_sale_Ok_inv _ _ _ _ _ E) as (_ & Hall & _).
      rewrite Forall_forall in Hall. specialize (Hall it Hin).
      unfold item_valid in Hall. rewrite Hp, Ha in Hall.
      apply andb_prop in Hall as [_ Hle%Z.leb_le]. lia. }
    exists e. split; [|done].
    by rewrite (create_new_sale_rollback _ _ _ _ _ E Hne).
  - intros pre it post p a Hitems Hpre Hq Hex.
    rewrite (create_new_sale_Raise _ _ _
               (HTTPException 400
                  (detail_insufficient p (SaleItemBase.quantity it) a)));
      [done|].
    eapply create_sale_first_offender; [done..|].
    intros acc. by apply sale_step_insufficient.
Qed.

(** Six widgets asked of a stock of five. *)
Lemma create_sale_insufficient_stock_witness :
  create_new_sale 0 (Sample.order [Sample.item 2 1; Sample.item 1 6])
                  Sample.shop
    = (HTTPError 400
         "Insufficient stock for Widget (SKU: W-1). Requested: 6, Available: 5",
       Sample.shop).
Proof.
  apply (proj2 (create_sale_insufficient_stock 0
           (Sample.order [Sample.item 2 1; Sample.item 1 6]) Sample.shop)
           [Sample.item 2 1] (Sample.item 1 6) [] Sample.widget 5 eq_refl).
  - repeat constructor.
  - reflexivity.
  - repeat split.
Defined.

(** C4, as stated, fails: an item that asks for more than the stock, placed
    after an item whose product does not exist, is answered with status
    404, not with the insufficient-stock message. *)
Lemma create_sale_insufficient_stock_counterexample :
  ¬ (∀ now sd db it p a,
       it ∈ SaleCreate.items sd → exceeds_stock db it p a →
       (create_new_sale now sd db).1
         = HTTPError 400
             (detail_insufficient p (SaleItemBase.quantity it) a)).
Proof.
  intros H.
  specialize (H 0 (Sample.order [Sample.item 9 1; Sample.item 1 6])
                Sample.shop (Sample.item 1 6) Sample.widget 5).
  assert (Hin : Sample.item 1 6
                ∈ SaleCreate.items
                    (Sample.order [Sample.item 9 1; Sample.item 1 6])).
  { cbn. apply list_elem_of_further, list_elem_of_here. }
  assert (Hex : exceeds_stock Sample.shop (Sample.item 1 6) Sample.widget 5).
  { repeat split. }
  specialize (H Hin Hex). vm_compute in H. discriminate H.
Qed.

(** ** Stock never sold below zero *)

Lemma sold_absent items i :
  i ∉ SaleItemBase.product_id <$> items →
  sold i (to_update <$> items) = 0.
Proof.
  induction items as [|it items IH]; intros Hnot; [done|].
  cbn [fmap list_fmap] in *. rewrite sold_cons.
  apply not_elem_of_cons in Hnot as [Hne Hnot].
  rewrite decide_False by (cbn; congruence). by rewrite IH.
Qed.

(** When no two items refer to the same product, what the decrement loop
    takes from a product is at most its stock. *)
Lemma sold_at_most_stock db items i p a :
  NoDup (SaleItemBase.product_id <$> items) →
  Forall (λ it, item_valid db it = true) items →
  products db !! i = Some p →
  Product.quantity_available p = Some a →
  0 ≤ a →
  sold i (to_update <$> items) ≤ a.
Proof.
  intros Hnd Hall Hp Ha Hpos.
  induction items as [|it items IH]; [done|].
  cbn [fmap list_fmap] in *. rewrite sold_cons.
  apply NoDup_cons in Hnd as [Hnot Hnd].
  apply Forall_cons in Hall as [Hit Hall].
  destruct (decide ((to_update it).1 = i)) as [Hk|Hk].
  - cbn in Hk. subst i. rewrite (sold_absent _ _ Hnot), Z.add_0_r.
    unfold item_valid in Hit. rewrite Hp, Ha in Hit.
    by apply andb_prop in Hit as [_ Hle%Z.leb_le].
  - rewrite Z.add_0_l. by apply IH.
Qed.

(** C2, as amended. From a state in which no stock is negative, a sale whose
    items refer to pairwise distinct products either succeeds and leaves no
    stock negative, or fails and leaves the state unchanged. *)
Theorem create_sale_keeps_stock_nonneg now sd db :
  stock_nonneg db →
  NoDup (SaleItemBase.product_id <$> SaleCreate.items sd) →
  match create_new_sale now sd db with
  | (Success _, db') => stock_nonneg db'
  | (_, db') => db' = db
  end.
Proof.
  intros Hinv Hnd.
  destruct (create_new_sale now sd db) as [r db'] eqn:E.
  destruct r as [r|c d|pre f];
    [|by apply (create_new_sale_rollback _ _ _ _ _ E)..].
  apply create_new_sale_Success_inv in E.
  destruct (create_sale_Ok_inv _ _ _ _ _ E) as (_ & Hall & _).
  destruct (create_sale_Ok_eq _ _ _ _ _ E) as [_ Hps].
  intros i p' a' Hp' Ha'.
  rewrite Hps, lookup_foldl_sell in Hp'.
  destruct (products db !! i) as [p|] eqn:Hp; [|done].
  injection Hp' as <-. unfold decrement in Ha'.
  destruct p as [n s c [a|] rl sup]; cbn in Ha'; [|done].
  injection Ha' as <-.
  pose proof (Hinv i _ a Hp eq_refl) as Hpos.
  pose proof (sold_at_most_stock db _ i _ a Hnd Hall Hp eq_refl Hpos). lia.
Qed.

Lemma sample_shop_stock_nonneg : stock_nonneg Sample.shop.
Proof.
  intros i p a Hp Ha. unfold Sample.shop in Hp. cbn [products] in Hp.
  repeat (apply lookup_insert_Some in Hp as [[? <-]|[? Hp]];
          [cbn in Ha; simplify_eq; lia|]).
  done.
Qed.

(** Three widgets and seven gadgets sold from the sample shop. *)
Lemma create_sale_keeps_stock_nonneg_witness :
  stock_nonneg Sample.shop
  ∧ stock_nonneg
      (create_new_sale 0 (Sample.order [Sample.item 1 3; Sample.item 2 7])
                       Sample.shop).2.
Proof.
  split; [exact sample_shop_stock_nonneg|].
  pose proof (create_sale_keeps_stock_nonneg 0
                (Sample.order [Sample.item 1 3; Sample.item 2 7])
                Sample.shop sample_shop_stock_nonneg) as H.
  assert (Hnd : NoDup (SaleItemBase.product_id
                       <$> SaleCreate.items
                             (Sample.order [Sample.item 1 3;
                                            Sample.item 2 7]))).
  { cbn. compute_done. }
  specialize (H Hnd).
  destruct (create_new_sale 0 _ Sample.shop) as [[r|c d|pre f] db'] eqn:E;
    [exact H|vm_compute in E; discriminate E..].
Defined.

(** C2, as stated, fails: creating a product with a stock of -1 is
    accepted, so a reachable state has a negative stock. *)
Lemma stock_nonneg_counterexample :
  ¬ (∀ db, reachable db → stock_nonneg db).
Proof.
  intros H.
  pose proof (H _ (reachable_serve
                     (CreateProduct (Sample.new_product (-1))) _
                     reachable_empty) 1
                (Product.mk "Widget" "W-1" 1000 (Some (-1)) (Some 10) None)
                (-1) eq_refl eq_refl) as Hneg.
  lia.
Qed.

(** The same happens through a sale that lists one product twice: each
    item is checked against the stock the call started from, and both
    quantities are then taken. *)
Remark create_sale_repeated_product :
  ∃ r db',
    create_new_sale 0 (Sample.order [Sample.item 1 3; Sample.item 1 3])
                    Sample.shop = (Success r, db')
    ∧ Product.quantity_available <$> products db' !! 1 = Some (Some (-1)).
Proof. eexists _, _. split; vm_compute; reflexivity. Qed.

(** ** The sales summary *)

(** The range of the query, from the first instant of [f] to the last
    instant of [t], holds exactly the timestamps of the days [f] to [t]. *)
Lemma in_range_on_days f t s :
  in_range (combine_min f) (combine_max t) s = true ↔ on_days f t s.
Proof.
  unfold in_range, on_days, combine_min, combine_max, date_of, usec_per_day.
  rewrite andb_true_iff, !Z.leb_le.
  pose proof (Z.div_mod (Sale.created_at s) 86400000000 ltac:(lia)).
  pose proof (Z.mod_pos_bound (Sale.created_at s) 86400000000 ltac:(lia)).
  lia.
Qed.

Lemma sql_sum_default l : default 0 (sql_sum l) = sum_list l.
Proof. by destruct l. Qed.

(** C6. The summary of a range of days holds the sum of the totals of the
    sales created on those days, the number of those sales, and the floor
    of the quotient of the two; a range without sales is summarised as
    0, 0, 0, with no division. *)
Theorem sales_summary_spec from_date to_date db :
  let rows := filter (on_days from_date to_date) (sales db) in
  let total := sum_list (Sale.total_cents <$> rows) in
  let count := Z.of_nat (length rows) in
  ∃ average,
    get_sales_summary from_date to_date db
      = (Success (SalesSummary.mk from_date to_date total count average), db)
    ∧ (0 < count → average = total / count
                   ∧ average * count ≤ total < (average + 1) * count)
    ∧ (rows = [] → total = 0 ∧ count = 0 ∧ average = 0).
Proof.
  intros rows total count. unfold get_sales_summary.
  rewrite sql_sum_default.
  rewrite (list_filter_iff _ (on_days from_date to_date))
    by (intros s; apply in_range_on_days).
  fold rows. fold total. fold count.
  eexists. split; [reflexivity|]. split.
  - intros Hpos. destruct (Z.ltb_spec 0 count); [|lia].
    split; [done|].
    pose proof (Z.div_mod total count ltac:(lia)).
    pose proof (Z.mod_pos_bound total count ltac:(lia)). nia.
  - intros Hnil. unfold total, count. rewrite Hnil. done.
Qed.

(** ** Sorted listings *)

(** A list sorted for [R] whose elements all satisfy [P] is sorted for any
    relation that [R] implies between such elements. *)
Lemma StronglySorted_weaken {A} (R R' : relation A) (P : A → Prop) l :
  (∀ x y, P x → P y → R x y → R' x y) →
  Forall P l → StronglySorted R l → StronglySorted R' l.
Proof.
  intros Himp HP Hs. induction Hs as [|x l Hs IH Hx]; [constructor|].
  apply Forall_cons in HP as [Px Pl]. constructor; [by apply IH|].
  rewrite Forall_forall in *. intros y Hy. apply Himp; auto.
Qed.

Lemma StronglySorted_sublist {A} (R : relation A) l1 l2 :
  l1 `sublist_of` l2 → StronglySorted R l2 → StronglySorted R l1.
Proof.
  induction 1 as [|x l1 l2 Hsub IH|x l1 l2 Hsub IH]; intros Hs;
    [done|..]; apply StronglySorted_cons in Hs as [Hx Hs].
  - apply StronglySorted_cons. split; [|by apply IH].
    rewrite Forall_forall in *. intros y Hy. apply Hx.
    by eapply elem_of_sublist.
  - by apply IH.
Qed.

Global Instance by_quantity_total : Total by_quantity.
Proof.
  intros [i [n s c [a|] r sup]] [j [n' s' c' [b|] r' sup']];
    unfold by_quantity; cbn; auto.
  destruct (Z.leb_spec a b); [by left|right]. apply Z.leb_le. lia.
Qed.

Global Instance by_quantity_trans : Transitive by_quantity.
Proof.
  intros [i [n s c [a|] r sup]] [j [n' s' c' [b|] r' sup']]
         [k [n2 s2 c2 [d|] r2 sup2]]; unfold by_quantity; cbn; try done.
  rewrite !Z.leb_le. lia.
Qed.

Lemma low_stock_is_low threshold (r : product_row) :
  low_stock threshold r = true ↔ is_low threshold r.2.
Proof.
  destruct r as [i [n s c q rl sup]]. unfold low_stock, is_low, sql_le. cbn.
  destruct threshold as [th|], q as [a|]; try destruct rl as [l|];
    rewrite ?Z.leb_le; split;
    try (intros ?; by eauto);
    try (intros (? & ? & ?); by simplify_eq);
    try (intros (? & ? & ? & ? & ?); by simplify_eq).
Qed.

(** C7. With a threshold the low-stock report returns exactly the products
    whose stock is at or below the threshold, without one exactly those
    whose stock is at or below their own reorder level; each once, in
    ascending order of stock; the state is unchanged. *)
Theorem low_stock_report_spec threshold db :
  ∃ rows,
    get_low_stock_report threshold db = (Success rows, db)
    ∧ NoDup rows
    ∧ (∀ i p, (i, p) ∈ rows ↔
              products db !! i = Some p ∧ is_low threshold p)
    ∧ StronglySorted stock_le rows.
Proof.
  eexists. split; [reflexivity|].
  set (low := filter (λ r, low_stock threshold r = true)
                     (map_to_list (products db))).
  assert (Hmem : ∀ i p, (i, p) ∈ merge_sort by_quantity low ↔
                        products db !! i = Some p ∧ is_low threshold p).
  { intros i p. rewrite merge_sort_Permutation. unfold low.
    rewrite list_elem_of_filter, elem_of_map_to_list, low_stock_is_low.
    cbn. tauto. }
  split; [|split; [done|]].
  - rewrite merge_sort_Permutation. apply NoDup_filter, NoDup_map_to_list.
  - apply (StronglySorted_weaken by_quantity stock_le
             (λ r, ∃ a, Product.quantity_available r.2 = Some a)).
    + intros x y [a Ha] [b Hb]. unfold by_quantity, stock_le.
      rewrite Ha, Hb. cbn. rewrite Z.leb_le. eauto.
    + apply Forall_forall. intros [i p] Hin. apply Hmem in Hin as [_ Hlow].
      destruct threshold; cbn in *;
        [destruct Hlow as (a & Ha & _)|destruct Hlow as (a & r & Ha & _)];
        eauto.
    + apply StronglySorted_merge_sort; apply _.
Qed.

Section NameOrder.

Variable name_le : string → string → bool.
Hypothesis name_le_total : ∀ a b, name_le a b = true ∨ name_le b a = true.
Hypothesis name_le_trans :
  ∀ a b c, name_le a b = true → name_le b c = true → name_le a c = true.

Local Instance by_name_total : Total (by_name name_le).
Proof. intros x y. apply name_le_total. Qed.

Local Instance by_name_trans : Transitive (by_name name_le).
Proof. intros x y z. apply name_le_trans. Qed.

(** C10. The listing returns the stored products in ascending order of
    name, without the first [skip] of that order and cut after [limit]
    rows, hence at most 100 rows under the default limit; the state is
    unchanged. *)
Theorem get_products_spec skip limit db :
  0 ≤ skip → 0 ≤ limit →
  ∃ rows ordered,
    get_products name_le skip limit db = (Success rows, db)
    ∧ ordered ≡ₚ map_to_list (products db)
    ∧ StronglySorted (by_name name_le) ordered
    ∧ rows = take (Z.to_nat limit) (drop (Z.to_nat skip) ordered)
    ∧ StronglySorted (by_name name_le) rows
    ∧ Z.of_nat (length rows) ≤ limit
    ∧ (limit = default_limit → Z.of_nat (length rows) ≤ 100).
Proof.
  intros Hskip Hlimit. unfold get_products.
  destruct (Z.ltb_spec skip 0); [lia|].
  destruct (Z.ltb_spec limit 0); [lia|]. cbn [orb].
  set (ordered := merge_sort (by_name name_le) (map_to_list (products db))).
  assert (Hsorted : StronglySorted (by_name name_le) ordered)
    by (apply StronglySorted_merge_sort; apply _).
  assert (Hlen : Z.of_nat (length (take (Z.to_nat limit)
                                      (drop (Z.to_nat skip) ordered)))
                 ≤ limit) by (rewrite length_take; lia).
  eexists _, ordered. split; [reflexivity|].
  split; [apply merge_sort_Permutation|].
  split; [done|]. split; [done|]. split; [|split; [done|]].
  - eapply StronglySorted_sublist; [|exact Hsorted].
    etrans; [apply sublist_take|apply sublist_drop].
  - intros ->. exact Hlen.
Qed.

(** A negative [skip] or [limit] is refused by the storage and answered
    with status 500; the state is unchanged. *)
Remark get_products_negative skip limit db :
  skip < 0 ∨ limit < 0 →
  get_products name_le skip limit db
    = (ServerError "Error fetching products: " ProgrammingError, db).
Proof.
  intros Hneg. unfold get_products.
  destruct (Z.ltb_spec skip 0), (Z.ltb_spec limit 0); try done. lia.
Qed.

End NameOrder.

(** The order of strings by character code is transitive. *)
Lemma string_leb_trans a : ∀ b c,
  String.leb a b = true → String.leb b c = true → String.leb a c = true.
Proof.
  assert (Hle : ∀ s t, String.leb s t = true ↔ String.compare s t ≠ Gt).
  { intros s t. unfold String.leb. by destruct (String.compare s t). }
  intros b c. rewrite !Hle. clear Hle. revert b c.
  induction a as [|x a IH]; intros [|y b] [|z c]; cbn; try done.
  unfold Ascii.compare.
  destruct (N.compare_spec (Ascii.N_of_ascii x) (Ascii.N_of_ascii y)) as [E1|L1|G1];
    [| |done];
    destruct (N.compare_spec (Ascii.N_of_ascii y) (Ascii.N_of_ascii z)) as [E2|L2|G2];
    try done.
  - rewrite <- E2, E1, N.compare_refl. apply IH.
  - intros _ _. rewrite E1. by apply N.compare_lt_iff in L2 as ->.
  - intros _ _. rewrite <- E2. by apply N.compare_lt_iff in L1 as ->.
  - intros _ _.
    assert (Ascii.N_of_ascii x < Ascii.N_of_ascii z)%N as ->%N.compare_lt_iff
      by (etrans; eassumption).
    done.
Qed.

(** The first two products of the sample shop by name. *)
Lemma get_products_spec_witness :
  ∃ rows,
    get_products String.leb 0 2 Sample.shop = (Success rows, Sample.shop)
    ∧ StronglySorted (by_name String.leb) rows
    ∧ Z.of_nat (length rows) ≤ 2.
Proof.
  destruct (get_products_spec String.leb String.leb_total string_leb_trans
              0 2 Sample.shop ltac:(done) ltac:(done))
    as (rows & ordered & Heq & _ & _ & _ & Hsorted & Hlen & _).
  exists rows. done.
Defined.

(** ** Deleting a product *)

Lemma referenced_spec product_id (l : list SaleItem.t) :
  existsb (λ it, bool_decide (SaleItem.product_id it = product_id)) l = true
  ↔ ∃ it, it ∈ l ∧ SaleItem.product_id it = product_id.
Proof.
  rewrite existsb_exists. split; intros (it & Hin & Hid); exists it.
  - apply list_elem_of_In in Hin. by apply bool_decide_eq_true in Hid.
  - apply list_elem_of_In in Hin. split; [done|].
    by apply bool_decide_eq_true_2.
Qed.

(** A listing shows stored products only. *)
Lemma get_products_stored name_le skip limit db rows db' i q :
  get_products name_le skip limit db = (Success rows, db') →
  (i, q) ∈ rows → products db !! i = Some q.
Proof.
  unfold get_products.
  destruct ((skip <? 0) || (limit <? 0)); [done|]. intros [= <- _] Hin.
  apply elem_of_map_to_list. rewrite <- (merge_sort_Permutation (by_name name_le)).
  eapply elem_of_sublist; [exact Hin|].
  etrans; [apply sublist_take|apply sublist_drop].
Qed.

(** C8. Deleting an id that is not stored answers 404; deleting a product
    that some sale item refers to answers 400 and changes nothing, so the
    product stays; deleting a product no sale item refers to succeeds,
    removes that product only, and no later listing shows it. *)
Theorem delete_product_spec product_id db :
  (products db !! product_id = None →
   delete_product product_id db = (HTTPError 404 "Product not found", db))
  ∧ (∀ p, products db !! product_id = Some p →
          (∃ it, it ∈ sale_items db ∧ SaleItem.product_id it = product_id) →
          delete_product product_id db
            = (HTTPError 400
                 "Cannot delete product, it is associated with existing sales.",
               db))
  ∧ (∀ p, products db !! product_id = Some p →
          (∀ it, it ∈ sale_items db → SaleItem.product_id it ≠ product_id) →
          ∃ db',
            delete_product product_id db = (Success (), db')
            ∧ products db' !! product_id = None
            ∧ (∀ j, j ≠ product_id → products db' !! j = products db !! j)
            ∧ (∀ name_le skip limit rows db'',
                 get_products name_le skip limit db' = (Success rows, db'') →
                 ∀ q, (product_id, q) ∉ rows)).
Proof.
  unfold delete_product. split; [|split].
  - by intros ->.
  - intros p -> Href. apply referenced_spec in Href. by rewrite Href.
  - intros p -> Hfree.
    destruct (existsb _ (sale_items db)) eqn:Href.
    { apply referenced_spec in Href as (it & Hin & Hid).
      by destruct (Hfree it Hin). }
    eexists. split; [reflexivity|]. cbn [set_products products].
    split; [apply lookup_delete_eq|]. split.
    + intros j Hj. by apply lookup_delete_ne.
    + intros name_le skip limit rows db'' Hget q Hin.
      apply (get_products_stored _ _ _ _ _ _ _ _ Hget) in Hin.
      cbn [set_products products] in Hin.
      by rewrite lookup_delete_eq in Hin.
Qed.

(** The gadget of the sample shop, which no sale item refers to, is
    deleted; the widget stays. *)
Lemma delete_product_spec_witness :
  ∃ db',
    delete_product 2 Sample.shop = (Success (), db')
    ∧ products db' !! 2 = None
    ∧ products db' !! 1 = Some Sample.widget.
Proof.
  destruct (proj2 (proj2 (delete_product_spec 2 Sample.shop))
              Sample.gadget eq_refl)
    as (db' & Hdel & Hgone & Hother & _).
  - intros it Hin. cbn in Hin. by apply elem_of_nil in Hin.
  - exists db'. split; [done|]. split; [done|].
    by rewrite Hother.
Defined.

(** ** Updating a product *)

Lemma commit_product_inv product_id old o db new db' :
  commit_product product_id old o db = Ok (new, db') →
  ProductObj.to_row o = Some new
  ∧ update_accepted db old new = true
  ∧ db' = set_products (<[product_id := new]> (products db)) db.
Proof.
  unfold commit_product, update_accepted.
  destruct (ProductObj.to_row o) as [n|]; [|done].
  destruct (update_fits db old n) eqn:Hf; [|done].
  destruct (update_keys_ok db old n) eqn:Hk; [|done].
  cbn [negb]. intros [= <- <-]. by rewrite Hf, Hk.
Qed.

Lemma commit_product_accepted product_id old o db new :
  ProductObj.to_row o = Some new →
  update_accepted db old new = true →
  commit_product product_id old o db
    = Ok (new, set_products (<[product_id := new]> (products db)) db).
Proof.
  unfold commit_product, update_accepted. intros -> [-> ->]%andb_prop. done.
Qed.

(** A refused UPDATE raises an exception that is not an [HTTPException]. *)
Lemma commit_product_Raise product_id old o db e :
  commit_product product_id old o db = Raise e → ∃ f, e = Unhandled f.
Proof.
  unfold commit_product. repeat case_match; intros [= <-]; eauto.
Qed.

Lemma of_row_to_row o p : ProductObj.to_row o = Some p → ProductObj.of_row p = o.
Proof.
  destruct o as [[n|] [s|] [c|] q r sup]; cbn; try done. by intros [= <-].
Qed.

(** C9. For every stored product and every update request, each attribute
    the request carries is overwritten with the request's value and each
    attribute it does not carry keeps its value.  A request the storage
    accepts is answered with the patched product under the same id, stored
    in place of the old row, with every other product and every sale and
    sale item as before; a request the storage refuses changes nothing. *)
Theorem update_product_spec product_id product_update db p :
  products db !! product_id = Some p →
  let old := ProductObj.of_row p in
  let obj := set_attributes product_update old in
  (merged (ProductUpdate.name product_update)
          (ProductObj.name old) (ProductObj.name obj)
   ∧ merged (ProductUpdate.sku product_update)
            (ProductObj.sku old) (ProductObj.sku obj)
   ∧ merged (ProductUpdate.unit_price_cents product_update)
            (ProductObj.unit_price_cents old) (ProductObj.unit_price_cents obj)
   ∧ merged (ProductUpdate.quantity_available product_update)
            (ProductObj.quantity_available old)
            (ProductObj.quantity_available obj)
   ∧ merged (ProductUpdate.reorder_level product_update)
            (ProductObj.reorder_level old) (ProductObj.reorder_level obj)
   ∧ merged (ProductUpdate.supplier_id product_update)
            (ProductObj.supplier_id old) (ProductObj.supplier_id obj))
  ∧ match update_product product_id product_update db with
    | (Success (id', p'), db') =>
        id' = product_id
        ∧ ProductObj.of_row p' = obj
        ∧ products db' = <[product_id := p']> (products db)
        ∧ sales db' = sales db
        ∧ sale_items db' = sale_items db
        ∧ suppliers db' = suppliers db
        ∧ customers db' = customers db
    | (_, db') => db' = db
    end
  ∧ (∀ p', ProductObj.to_row obj = Some p' →
           update_accepted db p p' = true →
           (update_product product_id product_update db).1
             = Success (product_id, p')).
Proof.
  intros Hp old obj. split; [|split].
  - unfold obj, set_attributes, merged, patch. cbn.
    by destruct product_update as [[?|] [?|] [?|] [?|] [?|] [?|]].
  - unfold update_product. rewrite Hp. fold old. fold obj.
    destruct (commit_product product_id p obj db) as [[p' db']|e] eqn:E.
    + apply commit_product_inv in E as (Hrow & _ & ->).
      by rewrite (of_row_to_row _ _ Hrow).
    + by apply commit_product_Raise in E as [f ->].
  - intros p' Hrow Hacc. unfold update_product. rewrite Hp.
    fold old. fold obj.
    by rewrite (commit_product_accepted _ _ _ _ _ Hrow Hacc).
Qed.

(** Restocking the widget of the sample shop to 9 changes its stock and
    nothing else. *)
Lemma update_product_spec_witness :
  (update_product 1 (Sample.restock 9) Sample.shop).1
    = Success (1, Product.mk "Widget" "W-1" 1000 (Some 9) (Some 10) None).
Proof.
  apply (proj2 (proj2 (update_product_spec 1 (Sample.restock 9) Sample.shop
                         Sample.widget eq_refl))); reflexivity.
Defined.

(** A request without fields stores the row it found. *)
Example update_product_no_change :
  update_product 1 Sample.no_change Sample.shop
    = (Success (1, Sample.widget), Sample.shop).
Proof. vm_compute. reflexivity. Qed.

(** A request that gives the widget the SKU of the gadget, or sets its name
    to [null], is refused by the storage and changes nothing. *)
Example update_product_refused :
  update_product 1 (Sample.relabel "G-1") Sample.shop
    = (ServerError "Error updating product: " IntegrityError, Sample.shop)
  ∧ update_product 1
      (ProductUpdate.mk (Some None) None None None None None) Sample.shop
    = (ServerError "Error updating product: " IntegrityError, Sample.shop).
Proof. split; reflexivity. Qed.

(** So is a request that restocks the widget beyond what the column
    holds. *)
Example update_product_beyond_column :
  update_product 1 (Sample.restock 2147483648) Sample.shop
  = (ServerError "Error updating product: " DataError, Sample.shop).
Proof. reflexivity. Qed.

(* ===================================================================== *)
(** * Further properties                                                  *)
(* ===================================================================== *)

(** ** Consistency of every reachable state *)

Lemma sku_in_use_spec (ps : gmap Z Product.t) s :
  sku_in_use ps s = true ↔ ∃ i p, ps !! i = Some p ∧ Product.sku p = s.
Proof.
  unfold sku_in_use. rewrite existsb_exists. split.
  - intros ([i p] & Hin & Hs). apply list_elem_of_In, elem_of_map_to_list in Hin.
    apply bool_decide_eq_true in Hs. eauto.
  - intros (i & p & Hp & Hs). exists (i, p). split.
    + by apply list_elem_of_In, elem_of_map_to_list.
    + by apply bool_decide_eq_true_2.
Qed.

Lemma sku_not_in_use (ps : gmap Z Product.t) s i p :
  sku_in_use ps s = false → ps !! i = Some p → Product.sku p ≠ s.
Proof.
  intros Hfree Hp Hs.
  assert (sku_in_use ps s = true) by (apply sku_in_use_spec; eauto).
  congruence.
Qed.

Lemma email_in_use_spec (cs : gmap Z Customer.t) e :
  email_in_use cs e = true ↔ ∃ i c, cs !! i = Some c ∧ Customer.email c = Some e.
Proof.
  unfold email_in_use. rewrite existsb_exists. split.
  - intros ([i c] & Hin & Hs). apply list_elem_of_In, elem_of_map_to_list in Hin.
    apply bool_decide_eq_true in Hs. eauto.
  - intros (i & c & Hc & Hs). exists (i, c). split.
    + by apply list_elem_of_In, elem_of_map_to_list.
    + by apply bool_decide_eq_true_2.
Qed.

Lemma fk_ok_Some {V} k (table : gmap Z V) :
  fk_ok (Some k) table = true ↔ is_Some (table !! k).
Proof. unfold fk_ok. apply bool_decide_eq_true. Qed.

Lemma dense_fresh {V} (table : gmap Z V) :
  dense table → table !! (Z.of_nat (size table) + 1) = None.
Proof.
  intros Hd. apply eq_None_not_Some. intros Hs. apply Hd in Hs. lia.
Qed.

Lemma dense_insert {V} (table : gmap Z V) v :
  dense table → dense (<[Z.of_nat (size table) + 1 := v]> table).
Proof.
  intros Hd k. rewrite (map_size_insert_None _ _ _ (dense_fresh _ Hd)).
  rewrite lookup_insert_is_Some. pose proof (Hd k) as Hk.
  rewrite Nat2Z.inj_succ. split.
  - intros [?|[_ ?%Hk]]; lia.
  - intros Hr. destruct (decide (Z.of_nat (size table) + 1 = k)); [auto|].
    right. split; [done|]. apply Hk. lia.
Qed.

Lemma dense_empty {V} : dense (∅ : gmap Z V).
Proof.
  intros k. rewrite lookup_empty, map_size_empty. split; [by intros []|lia].
Qed.

Lemma number_items_Forall (P : SaleItem.t → Prop) sid ds : ∀ first,
  Forall (λ d, ∀ id, P (to_sale_item sid id d)) ds →
  Forall P (number_items sid first ds).
Proof.
  induction ds as [|d ds IH]; intros first Hall; [constructor|].
  apply Forall_cons in Hall as [Hd Hall]. cbn. constructor; auto.
Qed.

Lemma number_items_line_totals sid ds : ∀ first,
  SaleItem.line_total_cents <$> number_items sid first ds
    = LineItem.line_total_cents <$> ds.
Proof.
  induction ds as [|d ds IH]; intros first; [done|].
  cbn. by rewrite IH.
Qed.

Lemma number_items_length sid ds : ∀ first,
  length (number_items sid first ds) = length ds.
Proof.
  induction ds as [|d ds IH]; intros first; [done|]. cbn. by rewrite IH.
Qed.

Lemma create_sale_Ok_state now db sd sale db' :
  create_sale now db sd = Ok (sale, db') →
  db' = mkDB (suppliers db) (customers db)
             (foldl sell (products db) (to_update <$> SaleCreate.items sd))
             (next_product_id db) (sales db ++ [sale])
             (sale_items db ++ new_sale_items db (SaleCreate.items sd))
  ∧ Sale.id sale = Z.of_nat (length (sales db)) + 1
  ∧ Sale.customer_id sale = SaleCreate.customer_id sd
  ∧ Sale.subtotal_cents sale
    = sum_list (line_total db <$> SaleCreate.items sd)
  ∧ Sale.total_cents sale = Sale.subtotal_cents sale + Sale.tax_cents sale
  ∧ Sale.created_at sale = now.
Proof.
  intros H.
  destruct (create_sale_Ok_inv _ _ _ _ _ H)
    as (Hne & Hall & Hfk & Htax & Hfits).
  pose proof (create_sale_valid now db sd _ Hne Hall Htax Hfk Hfits) as Heq.
  cbv zeta in Heq. rewrite H in Heq. injection Heq as Hs Hdb.
  split; [|by rewrite Hs].
  rewrite Hdb. unfold new_sale_items. by rewrite <- Hs.
Qed.

Lemma decrement_sku n p : Product.sku (decrement n p) = Product.sku p.
Proof. by destruct p. Qed.

Lemma decrement_supplier_id n p :
  Product.supplier_id (decrement n p) = Product.supplier_id p.
Proof. by destruct p. Qed.

Lemma foldl_sell_is_Some upds (ps : gmap Z Product.t) i :
  is_Some (foldl sell ps upds !! i) ↔ is_Some (ps !! i).
Proof. rewrite lookup_foldl_sell. apply fmap_is_Some. Qed.

Lemma items_of_app db sid extra :
  filter (λ it, SaleItem.sale_id it = sid) (sale_items db ++ extra)
  = items_of db sid ++ filter (λ it, SaleItem.sale_id it = sid) extra.
Proof. apply filter_app. Qed.

(** Unfolds the parts of [consistent] and the projections of a state. *)
Ltac inv_unfold :=
  unfold ids_below_counter, sku_unique, email_unique, sales_numbered,
         references_resolve, items_priced, sales_balanced, items_of in *;
  cbn [suppliers customers products next_product_id sales sale_items
       set_products] in *.

Lemma consistent_empty : consistent empty_db.
Proof.
  split; unfold empty_db; inv_unfold; try apply dense_empty;
    repeat split; intros; simplify_map_eq;
    try match goal with H : _ ∈ [] |- _ => by apply elem_of_nil in H end;
    try match goal with H : is_Some None |- _ => by destruct H end.
Qed.

Lemma create_supplier_consistent s db :
  consistent db → consistent (create_supplier s db).2.
Proof.
  intros [Hsd Hcd Hid Hsku Hem Hnum (Hit & Hsup & Hcus) Hpr Hbal].
  unfold create_supplier. cbn [snd].
  split; inv_unfold; try done.
  - by apply dense_insert.
  - split; [done|]. split; [|done].
    intros i p k Hp Hk. apply lookup_insert_is_Some'. right. eauto.
Qed.

Lemma create_customer_consistent c db :
  consistent db → consistent (create_customer c db).2.
Proof.
  intros Hc.
  assert (Hadd : (∀ e, Customer.email c = Some e →
                       email_in_use (customers db) e = false) →
    consistent (mkDB (suppliers db)
                  (<[Z.of_nat (size (customers db)) + 1 := c]> (customers db))
                  (products db) (next_product_id db) (sales db)
                  (sale_items db))).
  { intros Hfree.
    destruct Hc as [Hsd Hcd Hid Hsku Hem Hnum (Hit & Hsup & Hcus) Hpr Hbal].
    pose proof (dense_fresh _ Hcd) as Hfresh.
    split; inv_unfold; try done.
    - by apply dense_insert.
    - intros i j x y e Hx Hy Hex Hey.
      apply lookup_insert_Some in Hx as [[<- <-]|[Hi Hx]];
        apply lookup_insert_Some in Hy as [[<- <-]|[Hj Hy]]; try done.
      + specialize (Hfree e Hex).
        assert (email_in_use (customers db) e = true)
          by (apply email_in_use_spec; eauto). congruence.
      + specialize (Hfree e Hey).
        assert (email_in_use (customers db) e = true)
          by (apply email_in_use_spec; eauto). congruence.
      + eauto.
    - split; [done|]. split; [done|].
      intros x k Hx Hk. apply lookup_insert_is_Some'. right. eauto. }
  unfold create_customer.
  destruct (Customer.email c) as [e|] eqn:He.
  - destruct (email_in_use (customers db) e) eqn:Huse.
    + by destruct (bool_decide (e = "")).
    + cbn [snd]. apply Hadd. by intros e' [= <-].
  - cbn [snd]. apply Hadd. done.
Qed.

Lemma counter_fresh db :
  ids_below_counter db → products db !! next_product_id db = None.
Proof.
  intros Hid. apply eq_None_not_Some. intros Hs. apply Hid in Hs. lia.
Qed.

(** A creation changes nothing, or stores the requested row under the id
    of the counter. *)
Lemma create_product_cases pc db :
  (create_product pc db).2 = db
  ∧ (∀ r, (create_product pc db).1 ≠ Success r)
  ∨ sku_in_use (products db) (ProductCreate.sku pc) = false
    ∧ fk_ok (ProductCreate.supplier_id pc) (suppliers db) = true
    ∧ create_product pc db
      = (Success (next_product_id db, requested_product pc),
         mkDB (suppliers db) (customers db)
              (<[next_product_id db := requested_product pc]> (products db))
              (next_product_id db + 1) (sales db) (sale_items db)).
Proof.
  unfold create_product.
  destruct (sku_in_use (products db) (ProductCreate.sku pc)) eqn:Huse;
    [by left|].
  destruct (fits _ && _ && _ && _); [|by left].
  cbn [Product.supplier_id negb].
  destruct (fk_ok (ProductCreate.supplier_id pc) (suppliers db)) eqn:Hfk;
    [|by left].
  right. split; [done|]. split; [done|].
  cbn [negb]. unfold requested_product.
  by destruct (ProductCreate.reorder_level pc).
Qed.

Lemma create_product_consistent pc db :
  consistent db → consistent (create_product pc db).2.
Proof.
  intros Hc.
  destruct (create_product_cases pc db) as [[-> _]|(Huse & Hfk & ->)];
    [done|].
  cbn [snd].
  destruct Hc as [Hsd Hcd Hid Hsku Hem Hnum (Hit & Hsup & Hcus) Hpr Hbal].
  pose proof (counter_fresh _ Hid) as Hfresh.
  split; inv_unfold; try done.
  - intros i [->|[_ Hi]]%lookup_insert_is_Some; [lia|].
    apply Hid in Hi. lia.
  - intros i j p q Hp Hq Heq.
    apply lookup_insert_Some in Hp as [[<- <-]|[Hi Hp]];
      apply lookup_insert_Some in Hq as [[<- <-]|[Hj Hq]]; try done.
    + cbn in Heq. by destruct (sku_not_in_use _ _ _ _ Huse Hq).
    + cbn in Heq. by destruct (sku_not_in_use _ _ _ _ Huse Hp).
    + eauto.
  - split; [|split; [|done]].
    + intros it Hin. destruct (Hit it Hin) as [Hp Hs]. split; [|done].
      apply lookup_insert_is_Some'. by right.
    + intros i p k Hp Hk.
      apply lookup_insert_Some in Hp as [[<- <-]|[Hi Hp]]; [|eauto].
      cbn in Hk. rewrite Hk in Hfk. by apply fk_ok_Some in Hfk.
Qed.

Lemma update_product_consistent i u db :
  consistent db → consistent (update_product i u db).2.
Proof.
  intros Hc. unfold update_product.
  destruct (products db !! i) as [p|] eqn:Hp; [|done].
  destruct (commit_product i p _ db) as [[p' db']|e] eqn:E;
    [|by apply commit_product_Raise in E as [f ->]].
  apply commit_product_inv in E as (_ & Hacc & ->). cbn [snd].
  unfold update_accepted, update_keys_ok in Hacc.
  apply andb_prop in Hacc as [_ [Hs Hf]%andb_prop].
  destruct Hc as [Hsd Hcd Hid Hsku Hem Hnum (Hit & Hsup & Hcus) Hpr Hbal].
  split; inv_unfold; try done.
  - intros j [<-|[_ Hj]]%lookup_insert_is_Some; [apply Hid; eauto|].
    by apply Hid.
  - assert (Hclash : ∀ j q, j ≠ i → products db !! j = Some q →
                            Product.sku p' ≠ Product.sku q).
    { intros j q Hj Hq Heq. apply orb_prop in Hs as [Hs|Hs].
      - apply bool_decide_eq_true in Hs. rewrite Hs in Heq.
        by destruct Hj, (Hsku _ _ _ _ Hp Hq Heq).
      - apply negb_true_iff in Hs.
        by destruct (sku_not_in_use _ _ _ _ Hs Hq). }
    intros j k x y Hx Hy Heq.
    apply lookup_insert_Some in Hx as [[<- <-]|[Hj Hx]];
      apply lookup_insert_Some in Hy as [[<- <-]|[Hk Hy]]; try done.
    + destruct (Hclash k y); [congruence|done|done].
    + destruct (Hclash j x); [congruence|done|by symmetry].
    + eauto.
  - split; [|split; [|done]].
    + intros it Hin. destruct (Hit it Hin) as [Hq Hsale]. split; [|done].
      apply lookup_insert_is_Some'. by right.
    + intros j q k Hq Hk.
      apply lookup_insert_Some in Hq as [[<- <-]|[Hj Hq]]; [|eauto].
      apply orb_prop in Hf as [Hf|Hf].
      * apply bool_decide_eq_true in Hf. rewrite Hf in Hk. eauto.
      * rewrite Hk in Hf. by apply fk_ok_Some in Hf.
Qed.

Lemma delete_product_consistent i db :
  consistent db → consistent (delete_product i db).2.
Proof.
  intros Hc. unfold delete_product.
  destruct (products db !! i) as [p|] eqn:Hp; [|done].
  destruct (existsb _ (sale_items db)) eqn:Href; [done|]. cbn [snd].
  destruct Hc as [Hsd Hcd Hid Hsku Hem Hnum (Hit & Hsup & Hcus) Hpr Hbal].
  split; inv_unfold; try done.
  - intros j [q [_ Hq]%lookup_delete_Some]. apply Hid. eauto.
  - intros j k x y [_ Hx]%lookup_delete_Some [_ Hy]%lookup_delete_Some.
    eauto.
  - split; [|split; [|done]].
    + intros it Hin. destruct (Hit it Hin) as [[q Hq] Hsale].
      split; [|done]. exists q. apply lookup_delete_Some. split; [|done].
      intros Heq.
      assert (existsb (λ it', bool_decide (SaleItem.product_id it' = i))
                      (sale_items db) = true) as Hyes; [|congruence].
      apply referenced_spec. eauto.
    + intros j q k [_ Hq]%lookup_delete_Some. eauto.
Qed.

Lemma filter_all {A} (P : A → Prop) `{∀ x, Decision (P x)} l :
  Forall P l → filter P l = l.
Proof.
  induction 1 as [|x l Hx Hl IH]; [done|].
  by rewrite filter_cons_True, IH.
Qed.

Lemma filter_none {A} (P : A → Prop) `{∀ x, Decision (P x)} l :
  Forall (λ x, ¬ P x) l → filter P l = [].
Proof.
  induction 1 as [|x l Hx Hl IH]; [done|].
  by rewrite filter_cons_False.
Qed.

Lemma to_line_item_line_totals db (items : list SaleItemBase.t) :
  LineItem.line_total_cents <$> (to_line_item db <$> items)
  = line_total db <$> items.
Proof. rewrite <- list_fmap_compose. by apply list_fmap_ext. Qed.

(** What the rows a sale adds look like. *)
Lemma new_sale_items_Forall db items :
  Forall (λ it, item_valid db it = true) items →
  Forall (λ it, SaleItem.sale_id it = Z.of_nat (length (sales db)) + 1
                ∧ is_Some (products db !! SaleItem.product_id it)
                ∧ SaleItem.line_total_cents it
                  = SaleItem.unit_price_cents it * SaleItem.quantity it
                ∧ 0 < SaleItem.quantity it)
         (new_sale_items db items).
Proof.
  intros Hall. unfold new_sale_items. apply number_items_Forall.
  apply Forall_fmap. eapply Forall_impl; [exact Hall|].
  intros it Hv id. unfold item_valid in Hv.
  apply andb_prop in Hv as [Hq Hp]. apply Z.ltb_lt in Hq.
  cbn. unfold line_total.
  destruct (products db !! SaleItemBase.product_id it) as [p|]; [|done].
  cbn. eauto.
Qed.

Lemma new_sale_items_total db items :
  sum_list (SaleItem.line_total_cents <$> new_sale_items db items)
  = sum_list (line_total db <$> items).
Proof.
  unfold new_sale_items.
  by rewrite number_items_line_totals, to_line_item_line_totals.
Qed.

Lemma foldl_sell_lookup_Some upds (ps : gmap Z Product.t) i p' :
  foldl sell ps upds !! i = Some p' →
  ∃ p, ps !! i = Some p ∧ p' = decrement (sold i upds) p.
Proof.
  rewrite lookup_foldl_sell. destruct (ps !! i) as [p|]; [|done].
  intros [= <-]. eauto.
Qed.

Lemma create_new_sale_consistent now sd db :
  consistent db → consistent (create_new_sale now sd db).2.
Proof.
  intros Hc. unfold create_new_sale.
  destruct (create_sale now db sd) as [[sale db']|e] eqn:E; [|done].
  destruct (sale_committed db db'); [|done].
  cbn [snd].
  destruct (create_sale_Ok_inv _ _ _ _ _ E) as (_ & Hall & Hfk & _).
  destruct (create_sale_Ok_state _ _ _ _ _ E)
    as (-> & Hsid & Hcid & Hsub & Htot & _).
  pose proof (new_sale_items_Forall db _ Hall) as Hnew.
  rewrite Forall_forall in Hnew.
  destruct Hc as [Hsd Hcd Hid Hsku Hem Hnum (Hit & Hsup & Hcus) Hpr Hbal].
  assert (Hold : ∀ s, s ∈ sales db →
                      1 ≤ Sale.id s ≤ Z.of_nat (length (sales db))).
  { intros s [k Hk]%list_elem_of_lookup. rewrite (Hnum _ _ Hk).
    apply lookup_lt_Some in Hk. lia. }
  split; inv_unfold; try done.
  - intros i Hi. apply Hid. by apply foldl_sell_is_Some in Hi.
  - intros i j p q (p0 & Hp & ->)%foldl_sell_lookup_Some
                   (q0 & Hq & ->)%foldl_sell_lookup_Some.
    rewrite !decrement_sku. eauto.
  - intros k s [[? Hk]|[Hk Heq]]%lookup_snoc_Some; [eauto|].
    subst s. lia.
  - split; [|split].
    + intros it [Hin|Hin]%elem_of_app.
      * destruct (Hit it Hin) as [Hp (s & Hs & Hids)].
        split; [by apply foldl_sell_is_Some|].
        exists s. split; [|done]. apply elem_of_app. by left.
      * destruct (Hnew it Hin) as (Hs & Hp & _).
        split; [by apply foldl_sell_is_Some|].
        exists sale. split; [|congruence].
        apply elem_of_app. right. by apply list_elem_of_singleton.
    + intros i p k (p0 & Hp & ->)%foldl_sell_lookup_Some.
      rewrite decrement_supplier_id. eauto.
    + intros s k [Hin|Hin%list_elem_of_singleton]%elem_of_app Hk; [eauto|].
      subst s. rewrite Hcid in Hk. rewrite Hk in Hfk.
      by apply fk_ok_Some in Hfk.
  - intros it [Hin|Hin]%elem_of_app; [eauto|].
    by destruct (Hnew it Hin) as (_ & _ & ? & ?).
  - intros s Hin. rewrite filter_app.
    apply elem_of_app in Hin as [Hin|Hin%list_elem_of_singleton].
    + rewrite (filter_none _ (new_sale_items _ _)), app_nil_r; [eauto|].
      apply Forall_forall. intros it Hit'.
      destruct (Hnew it Hit') as (Hs & _). specialize (Hold s Hin). lia.
    + subst s. rewrite (filter_none _ (sale_items db)).
      * rewrite (filter_all _ (new_sale_items _ _)).
        { cbn [app]. by rewrite new_sale_items_total. }
        apply Forall_forall. intros it Hit'.
        destruct (Hnew it Hit') as (Hs & _). lia.
      * apply Forall_forall. intros it Hit'.
        destruct (Hit it Hit') as [_ (s' & Hs' & Hids)].
        specialize (Hold s' Hs'). lia.
Qed.

Lemma serve_consistent rq db : consistent db → consistent (serve rq db).
Proof.
  destruct rq; cbn [serve].
  - apply create_supplier_consistent.
  - apply create_customer_consistent.
  - apply create_product_consistent.
  - apply update_product_consistent.
  - apply delete_product_consistent.
  - apply create_new_sale_consistent.
Qed.

Lemma reachable_consistent db : reachable db → consistent db.
Proof.
  induction 1; [apply consistent_empty|by apply serve_consistent].
Qed.

(** ** What every reachable state satisfies *)

Lemma reachable_serve_all rqs : ∀ db,
  reachable db → reachable (serve_all rqs db).
Proof.
  induction rqs as [|rq rqs IH]; intros db H; [done|].
  cbn. apply IH. by apply reachable_serve.
Qed.

(** X1. In every reachable state no two products carry the same SKU:
    creation refuses a SKU in use and the storage refuses an update to
    one. *)
Theorem reachable_sku_unique db : reachable db → sku_unique db.
Proof. intros H%reachable_consistent. apply H. Qed.

(** After two creations, a refused third one under the SKU of the first
    and a refused update of the second to that SKU, the store holds the
    two products under their two SKUs, and both requests are still
    refused. *)
Lemma reachable_sku_unique_witness :
  reachable Scenario.catalogue
  ∧ products Scenario.catalogue
    = <[1 := Sample.widget]> (<[2 := Sample.gadget]> ∅)
  ∧ (create_product Scenario.widget_again Scenario.catalogue).1
    = HTTPError 400 "Product with this SKU already exists"
  ∧ (update_product 2 (Sample.relabel "W-1") Scenario.catalogue).1
    = ServerError "Error updating product: " IntegrityError
  ∧ sku_unique Scenario.catalogue.
Proof.
  assert (reachable Scenario.catalogue) as Hr
    by apply reachable_serve_all, reachable_empty.
  split; [exact Hr|]. split; [by vm_compute|]. split; [by vm_compute|].
  split; [by vm_compute|]. exact (reachable_sku_unique _ Hr).
Defined.

(** X2. In every reachable state every foreign key resolves: each sale
    item refers to a stored product and to a sale of the ledger, each
    product's supplier and each sale's customer is stored. *)
Theorem reachable_references_resolve db :
  reachable db → references_resolve db.
Proof. intros H%reachable_consistent. apply H. Qed.

Lemma reachable_references_resolve_witness :
  references_resolve Scenario.trading
  ∧ sale_items Scenario.trading = [SaleItem.mk 1 1 1 1000 3 3000]
  ∧ sales Scenario.trading = [Sale.mk 1 (Some 1) 3000 240 3240 0]
  ∧ Product.supplier_id <$> products Scenario.trading !! 1 = Some (Some 1).
Proof.
  split; [|by vm_compute].
  apply reachable_references_resolve, reachable_serve_all, reachable_empty.
Defined.

(** X3. In every reachable state the ledger is balanced: the subtotal of
    each sale is the sum of the line totals of its items, its total is
    subtotal plus tax, and each item's line total is its unit price times
    its positive quantity. *)
Theorem reachable_ledger_balanced db :
  reachable db → sales_balanced db ∧ items_priced db.
Proof. intros H%reachable_consistent. split; apply H. Qed.

Lemma reachable_ledger_balanced_witness :
  sales_balanced
    (serve (CreateSale 0 (Sample.order [Sample.item 1 3]))
       (serve (CreateProduct (Sample.new_product 5)) empty_db))
  ∧ items_priced
      (serve (CreateSale 0 (Sample.order [Sample.item 1 3]))
         (serve (CreateProduct (Sample.new_product 5)) empty_db)).
Proof.
  apply reachable_ledger_balanced.
  do 2 apply reachable_serve. apply reachable_empty.
Defined.

(** X4. In every reachable state no two customers carry the same e-mail
    address. *)
Theorem reachable_email_unique db : reachable db → email_unique db.
Proof. intros H%reachable_consistent. apply H. Qed.

(** After two customers with an address, a refused third one under the
    address of the first and two customers without an address, the store
    holds the four customers, and the address of the first is still
    refused. *)
Lemma reachable_email_unique_witness :
  reachable Scenario.clients
  ∧ customers Scenario.clients
    = <[1 := Scenario.ada]> (<[2 := Scenario.bob]>
        (<[3 := Scenario.cy]> (<[4 := Scenario.di]> ∅)))
  ∧ (create_customer Scenario.ada_again Scenario.clients).1
    = HTTPError 400 "Customer with this email already exists"
  ∧ email_unique Scenario.clients.
Proof.
  assert (reachable Scenario.clients) as Hr
    by apply reachable_serve_all, reachable_empty.
  split; [exact Hr|]. split; [by vm_compute|]. split; [by vm_compute|].
  exact (reachable_email_unique _ Hr).
Defined.

(** X5. In a reachable state a successful creation stores the product
    under an id no stored product has, with the fields of the request,
    the reorder level being 10 when the request sends it as [null];
    [get_product] then returns it, and every other product is as before.
    A SKU in use is refused with status 400 and nothing changes. *)
Theorem create_product_get_product pc db :
  reachable db →
  (sku_in_use (products db) (ProductCreate.sku pc) = true →
   create_product pc db
     = (HTTPError 400 "Product with this SKU already exists", db))
  ∧ (∀ id p db',
       create_product pc db = (Success (id, p), db') →
       products db !! id = None
       ∧ get_product id db' = (Success (id, p), db')
       ∧ (∀ j, j ≠ id → (get_product j db').1 = (get_product j db).1)
       ∧ Product.name p = ProductCreate.name pc
       ∧ Product.sku p = ProductCreate.sku pc
       ∧ Product.unit_price_cents p = ProductCreate.unit_price_cents pc
       ∧ Product.quantity_available p
         = Some (ProductCreate.quantity_available pc)
       ∧ Product.reorder_level p
         = Some (default 10 (ProductCreate.reorder_level pc))
       ∧ Product.supplier_id p = ProductCreate.supplier_id pc).
Proof.
  intros Hc%reachable_consistent. split.
  - unfold create_product. by intros ->.
  - intros id p db' H.
    destruct (create_product_cases pc db) as [[_ Hne]|(_ & _ & Heq)].
    { rewrite H in Hne. by destruct (Hne (id, p)). }
    rewrite Heq in H. injection H as <- <- <-.
    pose proof (counter_fresh _ (products_below_counter _ Hc)) as Hfresh.
    split; [done|]. unfold get_product. cbn [products].
    rewrite lookup_insert_eq. split; [done|]. split.
    + intros j Hj. rewrite lookup_insert_ne by done.
      by destruct (products db !! j).
    + unfold requested_product. cbn.
      by destruct (ProductCreate.reorder_level pc).
Qed.

(** On the store of two products: a lamp sent with a reorder level of
    [null] is stored under id 3 with the reorder level 10 and read back,
    the widget is read as before, and a second product under the SKU of
    the widget is refused. *)
Lemma create_product_get_product_witness :
  ∃ db',
    create_product Scenario.lamp_request Scenario.catalogue
      = (Success (3, Scenario.lamp), db')
    ∧ Product.reorder_level Scenario.lamp = Some 10
    ∧ get_product 3 db' = (Success (3, Scenario.lamp), db')
    ∧ (get_product 1 db').1 = Success (1, Sample.widget)
    ∧ create_product Scenario.widget_again Scenario.catalogue
      = (HTTPError 400 "Product with this SKU already exists",
         Scenario.catalogue).
Proof.
  assert (reachable Scenario.catalogue) as Hr
    by apply reachable_serve_all, reachable_empty.
  eexists. split; [by vm_compute|]. split; [reflexivity|].
  destruct (proj2 (create_product_get_product Scenario.lamp_request
                     Scenario.catalogue Hr) 3 Scenario.lamp _
              ltac:(by vm_compute))
    as (_ & Hget & Hother & _).
  split; [exact Hget|]. split.
  - rewrite Hother by done. by vm_compute.
  - apply (proj1 (create_product_get_product Scenario.widget_again
                    Scenario.catalogue Hr)).
    by vm_compute.
Defined.

(** A price beyond what the column holds is refused by the storage. *)
Example create_product_beyond_column :
  create_product (ProductCreate.mk "Yacht" "Y-1" 2147483648 1 None None)
                 Scenario.catalogue
  = (ServerError "Error creating product: " DataError, Scenario.catalogue).
Proof. by vm_compute. Qed.

(** ** More on sales *)

Lemma number_items_Forall2 {A} (R : SaleItem.t → A → Prop) sid
    (f : A → LineItem.t) (l : list A) : ∀ first,
  (∀ id a, a ∈ l → R (to_sale_item sid id (f a)) a) →
  Forall2 R (number_items sid first (f <$> l)) l.
Proof.
  induction l as [|a l IH]; intros first HR; [constructor|].
  cbn. constructor.
  - apply HR, list_elem_of_here.
  - apply IH. intros id a' Ha'. by apply HR, list_elem_of_further.
Qed.

Lemma new_sale_items_records db items :
  Forall (λ it, item_valid db it = true) items →
  Forall2 (records db (Z.of_nat (length (sales db)) + 1))
          (new_sale_items db items) items.
Proof.
  intros Hall. unfold new_sale_items. apply number_items_Forall2.
  intros id req Hreq.
  rewrite Forall_forall in Hall. specialize (Hall req Hreq).
  unfold item_valid in Hall. apply andb_prop in Hall as [_ Hp].
  unfold records, to_line_item, line_total. cbn.
  destruct (products db !! SaleItemBase.product_id req) as [p|]; [|done].
  cbn. eauto 10.
Qed.

Lemma sales_numbered_bound db s :
  sales_numbered db → s ∈ sales db →
  1 ≤ Sale.id s ≤ Z.of_nat (length (sales db)).
Proof.
  intros Hnum [k Hk]%list_elem_of_lookup. rewrite (Hnum _ _ Hk).
  apply lookup_lt_Some in Hk. lia.
Qed.

(** The line items a sale is answered with, in a consistent state, are
    the rows the call added. *)
Lemma items_of_new_sale db items :
  consistent db →
  Forall (λ it, item_valid db it = true) items →
  filter (λ it, SaleItem.sale_id it = Z.of_nat (length (sales db)) + 1)
         (sale_items db ++ new_sale_items db items)
  = new_sale_items db items.
Proof.
  intros Hc Hall. rewrite filter_app.
  pose proof (new_sale_items_Forall db _ Hall) as Hnew.
  rewrite (filter_none _ (sale_items db)).
  - cbn [app]. apply filter_all. eapply Forall_impl; [exact Hnew|].
    by intros it (? & _).
  - apply Forall_forall. intros it Hin.
    destruct (foreign_keys _ Hc) as (Hit & _).
    destruct (Hit it Hin) as [_ (s & Hs & Hid)].
    pose proof (sales_numbered_bound _ _ (ledger_numbered _ Hc) Hs). lia.
Qed.

(** X6. In a reachable state a successful sale appends one sale to the
    ledger and one sale item per requested item, in the order of the
    request; each records the product, the quantity, the unit price the
    product has when the call starts and their product as line total, and
    these rows are the line items the answer carries. *)
Theorem create_sale_records_items now sd db r db' :
  reachable db →
  create_new_sale now sd db = (Success r, db') →
  sales db' = sales db ++ [SaleRead.sale r]
  ∧ sale_items db' = sale_items db ++ SaleRead.items r
  ∧ Forall2 (records db (Sale.id (SaleRead.sale r)))
            (SaleRead.items r) (SaleCreate.items sd).
Proof.
  intros Hc%reachable_consistent H. unfold create_new_sale in H.
  destruct (create_sale now db sd) as [[sale db1]|e] eqn:E;
    [|by destruct e].
  destruct (sale_committed db db1); [|done].
  injection H as <- <-. cbn [SaleRead.sale SaleRead.items].
  destruct (create_sale_Ok_inv _ _ _ _ _ E) as (_ & Hall & _).
  destruct (create_sale_Ok_state _ _ _ _ _ E) as (-> & Hsid & _).
  unfold items_of. cbn [sales sale_items]. rewrite Hsid.
  rewrite (items_of_new_sale _ _ Hc Hall).
  split; [done|]. split; [done|]. by apply new_sale_items_records.
Qed.

Lemma create_sale_records_items_witness :
  ∃ r db',
    create_new_sale 0 (Sample.order [Sample.item 1 3])
      (serve (CreateProduct (Sample.new_product 5)) empty_db)
      = (Success r, db')
    ∧ Forall2 (records (serve (CreateProduct (Sample.new_product 5))
                              empty_db) (Sale.id (SaleRead.sale r)))
              (SaleRead.items r) [Sample.item 1 3].
Proof.
  eexists _, _. split; [reflexivity|].
  eapply (create_sale_records_items 0 (Sample.order [Sample.item 1 3])).
  - apply reachable_serve, reachable_empty.
  - reflexivity.
Defined.

(** X7. A successful sale takes from each product the sum of the
    quantities of the items that refer to it, once per item, and leaves
    the name, the SKU, the unit price, the reorder level and the supplier
    of every product as they are; it adds and removes no product, and
    suppliers and customers are as before. *)
Theorem create_sale_takes_stock now sd db r db' :
  create_new_sale now sd db = (Success r, db') →
  (∀ i, products db !! i = None → products db' !! i = None)
  ∧ (∀ i p, products db !! i = Some p →
       ∃ p', products db' !! i = Some p'
             ∧ Product.quantity_available p'
               = (λ a, a - sold i (to_update <$> SaleCreate.items sd))
                   <$> Product.quantity_available p
             ∧ Product.name p' = Product.name p
             ∧ Product.sku p' = Product.sku p
             ∧ Product.unit_price_cents p' = Product.unit_price_cents p
             ∧ Product.reorder_level p' = Product.reorder_level p
             ∧ Product.supplier_id p' = Product.supplier_id p)
  ∧ suppliers db' = suppliers db
  ∧ customers db' = customers db.
Proof.
  intros H%create_new_sale_Success_inv.
  destruct (create_sale_Ok_state _ _ _ _ _ H) as (-> & _).
  cbn [products suppliers customers]. split; [|split; [|done]].
  - intros i Hi. by rewrite lookup_foldl_sell, Hi.
  - intros i p Hp. rewrite lookup_foldl_sell, Hp. cbn.
    eexists. split; [reflexivity|]. by destruct p.
Qed.

(** Two items of two widgets each leave one widget of five. *)
Lemma create_sale_takes_stock_witness :
  ∃ p',
    products
      (create_new_sale 0 (Sample.order [Sample.item 1 2; Sample.item 1 2])
                       Sample.shop).2 !! 1 = Some p'
    ∧ Product.quantity_available p' = Some 1.
Proof.
  destruct (create_new_sale 0
              (Sample.order [Sample.item 1 2; Sample.item 1 2]) Sample.shop)
    as [[r| |] db'] eqn:E; [|vm_compute in E; discriminate E..].
  destruct (proj1 (proj2 (create_sale_takes_stock _ _ _ _ _ E))
              1 Sample.widget eq_refl) as (p' & Hp' & Hq & _).
  exists p'. split; [exact Hp'|]. rewrite Hq. reflexivity.
Defined.

Lemma update_clear_stock i db p :
  products db !! i = Some p →
  update_product i clear_stock db
    = (Success (i, Product.set_quantity_available None p),
       set_products
         (<[i := Product.set_quantity_available None p]> (products db)) db).
Proof.
  intros Hp. unfold update_product. rewrite Hp.
  rewrite (commit_product_accepted _ _ _ _
             (Product.set_quantity_available None p)); [done|by destruct p|].
  unfold update_accepted, update_fits, update_keys_ok.
  destruct p as [n s c q rl sup]. cbn.
  repeat case_bool_decide; done.
Qed.

(** X9. An update that sets [quantity_available] to [null] is accepted for
    every stored product; after it, every sale that reaches an item of
    that product with a positive quantity is answered with status 500, a
    [TypeError] raised by the stock comparison, and changes nothing. *)
Theorem null_stock_breaks_sales i db p :
  products db !! i = Some p →
  ∃ p' db1,
    update_product i clear_stock db = (Success (i, p'), db1)
    ∧ Product.quantity_available p' = None
    ∧ ∀ now sd pre it post,
        SaleCreate.items sd = pre ++ it :: post →
        Forall (λ it, item_valid db1 it = true) pre →
        SaleItemBase.product_id it = i →
        0 < SaleItemBase.quantity it →
        create_new_sale now sd db1
          = (ServerError "An unexpected error occurred: " TypeError, db1).
Proof.
  intros Hp. eexists _, _. split; [by apply update_clear_stock|].
  split; [done|].
  intros now sd pre it post Hitems Hpre Hid Hq.
  rewrite (create_new_sale_Raise _ _ _ (Unhandled TypeError)); [done|].
  eapply create_sale_first_offender; [done..|].
  intros acc. unfold sale_step. cbn [products set_products].
  rewrite Hid, lookup_insert_eq. cbn.
  by destruct (Z.leb_spec (SaleItemBase.quantity it) 0); [lia|].
Qed.

Lemma null_stock_breaks_sales_witness :
  create_new_sale 0 (Sample.order [Sample.item 1 1])
                  (update_product 1 clear_stock Sample.shop).2
  = (ServerError "An unexpected error occurred: " TypeError,
     (update_product 1 clear_stock Sample.shop).2).
Proof.
  destruct (null_stock_breaks_sales 1 Sample.shop Sample.widget eq_refl)
    as (p' & db1 & Hupd & _ & Hsale).
  rewrite Hupd. cbn [snd].
  apply (Hsale 0 (Sample.order [Sample.item 1 1]) [] (Sample.item 1 1) []);
    [reflexivity|constructor|reflexivity|reflexivity].
Defined.

Lemma sold_product_serve i rq db :
  sold_product i db → sold_product i (serve rq db).
Proof.
  intros Hsold. pose proof Hsold as [Hp (it & Hin & Hid)].
  destruct rq as [s|c|pc|j u|j|now sd]; cbn [serve].
  - exact Hsold.
  - unfold create_customer. repeat case_match; exact Hsold.
  - unfold create_product. repeat case_match; try exact Hsold.
    split; [|by exists it]. cbn [snd products].
    apply lookup_insert_is_Some'. by right.
  - unfold update_product.
    destruct (products db !! j) as [q|]; [|exact Hsold].
    destruct (commit_product j q _ db) as [[q' db']|] eqn:E;
      [|exact Hsold].
    apply commit_product_inv in E as (_ & _ & ->). cbn [snd].
    split; [|by exists it]. cbn [products set_products].
    apply lookup_insert_is_Some'. by right.
  - unfold delete_product.
    destruct (products db !! j) as [q|] eqn:Hq; [|exact Hsold].
    destruct (existsb _ (sale_items db)) eqn:Href; [exact Hsold|].
    cbn [snd].
    assert (j ≠ i) as Hne.
    { intros ->.
      assert (existsb (λ it', bool_decide (SaleItem.product_id it' = i))
                      (sale_items db) = true) as Hyes; [|congruence].
      apply referenced_spec. eauto. }
    split; [|by exists it]. cbn [products set_products].
    by rewrite lookup_delete_ne.
  - unfold create_new_sale.
    destruct (create_sale now db sd) as [[sale db']|e] eqn:E;
      [|exact Hsold].
    destruct (sale_committed db db'); [|exact Hsold].
    cbn [snd]. destruct (create_sale_Ok_state _ _ _ _ _ E) as (-> & _).
    split; cbn [products sale_items].
    + by apply foldl_sell_is_Some.
    + exists it. split; [|done]. apply elem_of_app. by left.
Qed.

Lemma sold_product_serve_all i rqs : ∀ db,
  sold_product i db → sold_product i (serve_all rqs db).
Proof.
  induction rqs as [|rq rqs IH]; intros db H; [done|].
  cbn. apply IH. by apply sold_product_serve.
Qed.

Lemma delete_sold_product i db :
  sold_product i db →
  delete_product i db
    = (HTTPError 400
         "Cannot delete product, it is associated with existing sales.",
       db).
Proof.
  intros [[p Hp] Href]. unfold delete_product. rewrite Hp.
  apply referenced_spec in Href. by rewrite Href.
Qed.

(** X10. Once a sale of a product has succeeded the product can no longer
    be deleted: after any further requests, deleting it is answered with
    status 400 and changes nothing. *)
Theorem sold_product_never_deleted now sd db r db' it rqs :
  create_new_sale now sd db = (Success r, db') →
  it ∈ SaleCreate.items sd →
  delete_product (SaleItemBase.product_id it) (serve_all rqs db')
    = (HTTPError 400
         "Cannot delete product, it is associated with existing sales.",
       serve_all rqs db').
Proof.
  intros H%create_new_sale_Success_inv Hin.
  apply delete_sold_product, sold_product_serve_all.
  destruct (create_sale_Ok_inv _ _ _ _ _ H) as (_ & Hall & _).
  destruct (create_sale_Ok_state _ _ _ _ _ H) as (-> & _).
  pose proof (new_sale_items_records db _ Hall) as Hrec.
  apply list_elem_of_lookup in Hin as [k Hk].
  destruct (Forall2_lookup_r _ _ _ _ _ Hrec Hk)
    as (row & Hrow & _ & Hpid & _ & p & Hp & _).
  split; cbn [products sale_items].
  - apply foldl_sell_is_Some. eauto.
  - exists row. split; [|done]. apply elem_of_app. right.
    by eapply list_elem_of_lookup_2.
Qed.

Lemma sold_product_never_deleted_witness :
  delete_product 1
    (serve_all [UpdateProduct 1 (Sample.restock 0)]
       (create_new_sale 0 (Sample.order [Sample.item 1 3]) Sample.shop).2)
  = (HTTPError 400
       "Cannot delete product, it is associated with existing sales.",
     serve_all [UpdateProduct 1 (Sample.restock 0)]
       (create_new_sale 0 (Sample.order [Sample.item 1 3]) Sample.shop).2).
Proof.
  destruct (create_new_sale 0 (Sample.order [Sample.item 1 3]) Sample.shop)
    as [[r| |] db'] eqn:E; [|vm_compute in E; discriminate E..].
  apply (sold_product_never_deleted 0 (Sample.order [Sample.item 1 3])
           Sample.shop r db' (Sample.item 1 3)
           [UpdateProduct 1 (Sample.restock 0)] E).
  apply list_elem_of_here.
Defined.

(** X11. After a successful deletion the product is gone for every
    endpoint: reading, updating and deleting it again are answered with
    status 404, and so is a sale whose first failing item refers to it
    with a positive quantity; none of them changes the state. *)
Theorem deleted_product_is_gone i db db' :
  delete_product i db = (Success (), db') →
  get_product i db' = (HTTPError 404 "Product not found", db')
  ∧ (∀ u, update_product i u db'
          = (HTTPError 404 "Product not found", db'))
  ∧ delete_product i db' = (HTTPError 404 "Product not found", db')
  ∧ (∀ now sd pre it post,
       SaleCreate.items sd = pre ++ it :: post →
       Forall (λ it, item_valid db' it = true) pre →
       SaleItemBase.product_id it = i →
       0 < SaleItemBase.quantity it →
       create_new_sale now sd db'
         = (HTTPError 404 (detail_not_found i), db')).
Proof.
  unfold delete_product at 1.
  destruct (products db !! i) as [p|]; [|done].
  destruct (existsb _ (sale_items db)); [done|]. intros [= <-].
  assert (products (set_products (delete i (products db)) db) !! i = None)
    as Hgone by apply lookup_delete_eq.
  unfold get_product, update_product, delete_product. rewrite Hgone.
  repeat split.
  intros now sd pre it post Hitems Hpre Hid Hq.
  rewrite (create_new_sale_Raise _ _ _
             (HTTPException 404 (detail_not_found i))); [done|].
  eapply create_sale_first_offender; [done..|].
  intros acc. rewrite <- Hid. apply sale_step_missing; [done|].
  by rewrite Hid.
Qed.

Lemma deleted_product_is_gone_witness :
  get_product 2 (delete_product 2 Sample.shop).2
  = (HTTPError 404 "Product not found", (delete_product 2 Sample.shop).2).
Proof.
  destruct (delete_product 2 Sample.shop) as [[[]| |] db'] eqn:E;
    [|vm_compute in E; discriminate E..].
  apply (deleted_product_is_gone 2 Sample.shop db' E).
Defined.

(** ** More on the tax computation *)

Lemma normalize_sign s n e :
  Float64.normalize s n e
  = (λ f, Float64.mk s (Float64.man f) (Float64.exp f))
      <$> Float64.normalize false n e.
Proof.
  unfold Float64.normalize.
  destruct (0 <? Float64.digits n - Float64.prec); cbn;
    by case_match.
Qed.

(** The tax of a negative amount is the opposite of the tax of its
    absolute value. *)
Lemma int_mul_TAX_RATE_opp n :
  0 < n → int_mul_TAX_RATE (- n) = Z.opp <$> int_mul_TAX_RATE n.
Proof.
  intros Hn. unfold int_mul_TAX_RATE, Float64.of_int.
  replace (- n <? 0) with true by (symmetry; apply Z.ltb_lt; lia).
  replace (n <? 0) with false by (symmetry; apply Z.ltb_ge; lia).
  rewrite Z.abs_opp, (normalize_sign true).
  destruct (Float64.normalize false (Z.abs n) 0) as [[s m e]|] eqn:E1;
    [|done].
  assert (s = false) as ->.
  { unfold Float64.normalize in E1. repeat case_match; by simplify_eq. }
  cbn [fmap option_fmap option_map mbind option_bind].
  unfold Float64.mul, TAX_RATE.
  cbn [Float64.neg Float64.man Float64.exp xorb].
  rewrite (normalize_sign true).
  destruct (Float64.normalize false (m * _) _) as [[s2 m2 e2]|] eqn:E2;
    [|done].
  assert (s2 = false) as ->.
  { unfold Float64.normalize in E2. repeat case_match; by simplify_eq. }
  cbn [fmap option_fmap option_map mbind option_bind].
  unfold Float64.to_int. cbn [Float64.neg Float64.man Float64.exp].
  done.
Qed.

(** X12. For every amount of absolute value below 5254199565265587 the
    tax computed in floating point is the exact 8% of the amount rounded
    toward zero: down for a positive amount, up for a negative one. *)
Theorem tax_truncates_toward_zero n :
  - tax_exact_bound < n < tax_exact_bound →
  int_mul_TAX_RATE n = Some (exact_tax n).
Proof.
  intros Hn. unfold exact_tax.
  destruct (Z.le_gt_cases 0 n) as [Hpos|Hneg].
  - rewrite tax_exact_below by lia. f_equal.
    symmetry. apply Z.quot_div_nonneg; lia.
  - assert (∃ m, n = - m ∧ 0 < m < tax_exact_bound) as (m & -> & Hm)
      by (exists (- n); lia).
    rewrite int_mul_TAX_RATE_opp, tax_exact_below by lia.
    cbn [fmap option_fmap option_map]. f_equal.
    rewrite Z.mul_opp_l, Z.quot_opp_l by lia. f_equal.
    symmetry. apply Z.quot_div_nonneg; lia.
Qed.

(** The tax of -3012 cents is -240, not the floor -241. *)
Lemma tax_truncates_toward_zero_witness :
  int_mul_TAX_RATE (-3012) = Some (-240) ∧ -3012 * 8 / 100 = -241.
Proof.
  split; [|reflexivity].
  apply (tax_truncates_toward_zero (-3012)). vm_compute.
  split; reflexivity.
Defined.

Lemma digits_spec n :
  0 < n → 2 ^ (Float64.digits n - 1) ≤ n < 2 ^ Float64.digits n.
Proof.
  intros Hn. unfold Float64.digits.
  destruct (Z.eqb_spec n 0); [lia|].
  replace (Z.log2 n + 1 - 1) with (Z.log2 n) by lia.
  replace (Z.log2 n + 1) with (Z.succ (Z.log2 n)) by lia.
  by apply Z.log2_spec.
Qed.

Lemma digits_nonneg n : 0 ≤ Float64.digits n.
Proof.
  unfold Float64.digits. destruct (n =? 0); [done|].
  pose proof (Z.log2_nonneg n). lia.
Qed.

Lemma digits_ge n b : 0 ≤ b → 2 ^ b ≤ n → b < Float64.digits n.
Proof.
  intros Hb Hn. assert (0 < 2 ^ b) by (apply Z.pow_pos_nonneg; lia).
  unfold Float64.digits. destruct (Z.eqb_spec n 0); [lia|].
  assert (b ≤ Z.log2 n) by (apply Z.log2_le_pow2; lia). lia.
Qed.

(** Rounding a non-negative magnitude whose leading digit is below
    2^1023 gives a float, with a mantissa of at most 2^53. *)
Lemma normalize_in_range s n e :
  0 ≤ n → Float64.digits n + e ≤ 1023 →
  ∃ m e', Float64.normalize s n e = Some (Float64.mk s m e')
          ∧ 0 ≤ m ≤ 2 ^ 53
          ∧ e' + 53 ≤ Z.max (Float64.digits n) 53 + e.
Proof.
  intros Hn Hd. unfold Float64.normalize, Float64.prec, Float64.emax.
  destruct (Z.ltb_spec 0 (Float64.digits n - 53)) as [Hk|Hk].
  - set (k := Float64.digits n - 53) in *.
    assert (0 < n) as Hpos.
    { destruct (Z.eq_dec n 0) as [->|]; [|lia]. by cbn in Hk. }
    destruct (round_shift_bounds n k Hn Hk) as [Hlo Hhi].
    destruct (digits_spec n Hpos) as [_ Hup].
    replace (Float64.digits n) with (53 + k) in Hup by (unfold k; lia).
    rewrite Z.pow_add_r in Hup by lia.
    assert (0 < 2 ^ k) by (apply Z.pow_pos_nonneg; lia).
    set (m := Float64.round_shift n k) in *.
    assert (0 ≤ m).
    { etrans; [|exact Hlo]. apply Z.div_pos; lia. }
    assert (m ≤ 2 ^ 53).
    { change (2 ^ 53) with 9007199254740992 in *.
      set (P := 2 ^ k) in *. nia. }
    assert (Float64.digits m ≤ 54).
    { apply digits_le; [lia|]. split; [lia|].
      change (2 ^ 54) with (2 * 2 ^ 53). lia. }
    replace (1024 <? Float64.digits m + (e + k)) with false
      by (symmetry; apply Z.ltb_ge; unfold k; lia).
    exists m, (e + k). split; [done|]. split; [done|]. unfold k. lia.
  - replace (1024 <? Float64.digits n + e) with false
      by (symmetry; apply Z.ltb_ge; lia).
    exists n, e. split; [done|]. split; [|lia]. split; [done|].
    destruct (Z.eq_dec n 0) as [->|]; [done|].
    destruct (digits_spec n ltac:(lia)) as [_ Hup].
    assert (2 ^ Float64.digits n ≤ 2 ^ 53)
      by (apply Z.pow_le_mono_r; lia). lia.
Qed.

Lemma normalize_overflow s n :
  2 ^ 1024 ≤ n → Float64.normalize s n 0 = None.
Proof.
  intros Hn. unfold Float64.normalize, Float64.prec, Float64.emax.
  assert (0 < 2 ^ 1024) by (apply Z.pow_pos_nonneg; lia).
  pose proof (digits_ge n 1024 ltac:(lia) Hn) as Hd.
  destruct (Z.ltb_spec 0 (Float64.digits n - 53)) as [Hk|Hk]; [|lia].
  remember (Float64.digits n - 53) as k eqn:Hkd.
  destruct (round_shift_bounds n k ltac:(lia) Hk) as [Hlo _].
  destruct (digits_spec n ltac:(lia)) as [Hlow _].
  replace (Float64.digits n - 1) with (52 + k) in Hlow by lia.
  rewrite Z.pow_add_r in Hlow by lia.
  assert (0 < 2 ^ k) by (apply Z.pow_pos_nonneg; lia).
  assert (2 ^ 52 ≤ n / 2 ^ k) by (apply Z.div_le_lower_bound; lia).
  assert (52 < Float64.digits (Float64.round_shift n k))
    by (apply digits_ge; lia).
  replace (1024 <? Float64.digits (Float64.round_shift n k) + (0 + k))
    with true by (symmetry; apply Z.ltb_lt; lia).
  done.
Qed.

Lemma int_mul_TAX_RATE_is_Some_opp n :
  0 < n → is_Some (int_mul_TAX_RATE n) → is_Some (int_mul_TAX_RATE (- n)).
Proof.
  intros Hn Hs. rewrite int_mul_TAX_RATE_opp by done.
  by apply fmap_is_Some.
Qed.

(** X13. The tax computation raises [OverflowError] for no amount of
    absolute value below 2^1023 and for every amount of absolute value
    2^1024 or more. *)
Theorem tax_overflow_range n :
  (Z.abs n < 2 ^ 1023 → is_Some (int_mul_TAX_RATE n))
  ∧ (2 ^ 1024 ≤ Z.abs n → int_mul_TAX_RATE n = None).
Proof.
  assert (Hpos : ∀ a, 0 ≤ a < 2 ^ 1023 → is_Some (int_mul_TAX_RATE a)).
  { intros a [Ha0 Ha]. unfold int_mul_TAX_RATE, Float64.of_int.
    rewrite Z.abs_eq by done.
    assert (Float64.digits a ≤ 1023) by (apply digits_le; lia).
    destruct (normalize_in_range (a <? 0) a 0 Ha0 ltac:(lia))
      as (m & e & -> & Hm & He).
    cbn [mbind option_bind]. unfold Float64.mul, TAX_RATE.
    cbn [Float64.man Float64.exp Float64.neg].
    set (N := m * 5764607523034235).
    assert (0 ≤ N) by (unfold N; lia).
    assert (Float64.digits N ≤ 106).
    { apply digits_le; [lia|]. split; [done|].
      change (2 ^ 106) with (2 ^ 53 * 2 ^ 53).
      change (2 ^ 53) with 9007199254740992 in *. unfold N. nia. }
    pose proof (digits_nonneg N).
    destruct (normalize_in_range (xorb (a <? 0) false) N (e + -56)
                ltac:(done) ltac:(lia)) as (m2 & e2 & -> & _).
    by eexists. }
  split.
  - intros Hn. destruct (Z.le_gt_cases 0 n) as [H0|H0].
    + apply Hpos. lia.
    + replace n with (- - n) by lia.
      apply int_mul_TAX_RATE_is_Some_opp; [lia|]. apply Hpos. lia.
  - intros Hn. unfold int_mul_TAX_RATE, Float64.of_int.
    by rewrite normalize_overflow.
Qed.

(** ** When a sale succeeds *)

Lemma exact_tax_bounds n :
  (0 ≤ n → 0 ≤ exact_tax n ≤ n) ∧ (n ≤ 0 → n ≤ exact_tax n ≤ 0).
Proof.
  unfold exact_tax. Z.to_euclidean_division_equations. lia.
Qed.

(** The tax of an amount an integer column can hold is the exact 8% of
    it, rounded toward zero, and fits such a column too. *)
Lemma tax_of_column_value n :
  fits n = true →
  int_mul_TAX_RATE n = Some (exact_tax n) ∧ fits (exact_tax n) = true.
Proof.
  intros Hn%fits_spec. unfold int_min, int_max in Hn. split.
  - unfold exact_tax. destruct (Z.le_gt_cases 0 n) as [Hpos|Hneg].
    + rewrite tax_exact_below by (unfold tax_exact_bound; lia). f_equal.
      symmetry. apply Z.quot_div_nonneg; lia.
    + assert (∃ m, n = - m ∧ 0 < m ≤ 2147483648) as (m & -> & Hm)
        by (exists (- n); lia).
      rewrite int_mul_TAX_RATE_opp, tax_exact_below
        by (unfold tax_exact_bound; lia).
      cbn [fmap option_fmap option_map]. f_equal.
      rewrite Z.mul_opp_l, Z.quot_opp_l by lia. f_equal.
      symmetry. apply Z.quot_div_nonneg; lia.
  - apply fits_spec. unfold int_min, int_max.
    pose proof (exact_tax_bounds n). lia.
Qed.

Lemma fk_ok_ref_fits {V} ref (table : gmap Z V) :
  fk_ok ref table = true → ref_fits ref table = true.
Proof.
  destruct ref as [k|]; [|done]. cbn. intros ->. apply orb_true_r.
Qed.

(** X8. A sale succeeds exactly when the request has an item, every item
    has a positive quantity, an existing product and enough stock in the
    state the call starts from, the customer is absent or stored, and the
    storage can hold what the sale writes: the subtotal, the total with
    the exact tax rounded toward zero, for each item the unit price, the
    quantity and the line total, and for each product the items take from
    the stock that is left. *)
Theorem create_sale_succeeds_iff now sd db :
  (∃ r db', create_new_sale now sd db = (Success r, db'))
  ↔ SaleCreate.items sd ≠ []
    ∧ Forall (λ it, item_valid db it = true) (SaleCreate.items sd)
    ∧ fk_ok (SaleCreate.customer_id sd) (customers db) = true
    ∧ fits (sum_list (line_total db <$> SaleCreate.items sd)) = true
    ∧ fits (sum_list (line_total db <$> SaleCreate.items sd)
            + exact_tax (sum_list (line_total db <$> SaleCreate.items sd)))
      = true
    ∧ sale_lines_fit db (SaleCreate.items sd)
    ∧ stock_fits db (SaleCreate.items sd).
Proof.
  split.
  - intros (r & db' & H).
    pose proof (create_new_sale_Success_committed _ _ _ _ _ H) as Hcom.
    apply create_new_sale_Success_inv in H.
    destruct (create_sale_Ok_inv _ _ _ _ _ H)
      as (Hne & Hall & Hfk & Htax & Hfits).
    destruct (create_sale_Ok_state _ _ _ _ _ H) as (Hdb & _).
    rewrite Hdb in Hcom. unfold new_sale_items in Hcom.
    apply (sale_committed_pending _ _ _ _ _ _ _ Hall) in Hcom
      as [Hlines Hstock].
    unfold sale_row_fits in Hfits. cbv zeta in Hfits.
    apply andb_prop in Hfits as [[[_ Hsub]%andb_prop _]%andb_prop Htot].
    destruct (tax_of_column_value _ Hsub) as [Hexact _].
    rewrite Hexact in Htax. injection Htax as Htax.
    rewrite <- Htax in Htot. done.
  - intros (Hne & Hall & Hfk & Hsub & Htot & Hlines & Hstock).
    destruct (tax_of_column_value _ Hsub) as [Htax Htaxfits].
    assert (Hfits : sale_row_fits db sd
                      (exact_tax (sum_list (line_total db
                                            <$> SaleCreate.items sd)))
                    = true).
    { unfold sale_row_fits. cbv zeta.
      by rewrite (fk_ok_ref_fits _ _ Hfk), Hsub, Htaxfits, Htot. }
    pose proof (create_sale_valid now db sd _ Hne Hall Htax Hfk Hfits)
      as Hcs.
    cbv zeta in Hcs.
    rewrite (create_new_sale_Ok _ _ _ _ _ Hcs); [eauto|].
    by apply sale_committed_pending.
Qed.

(** On the sample shop: three widgets are sold; one jewel is not, the
    total being more than its column holds. *)
Example create_sale_succeeds_iff_sample :
  (∃ r db', create_new_sale 0 (Sample.order [Sample.item 1 3]) Sample.shop
            = (Success r, db'))
  ∧ ¬ (∃ r db', create_new_sale 0 (Sample.order [Sample.item 3 1])
                  Sample.shop = (Success r, db')).
Proof.
  split.
  - eexists _, _. vm_compute. reflexivity.
  - intros (r & db' & H). vm_compute in H. discriminate H.
Qed.

(** ** More on the reports *)

Lemma sum_list_app l1 l2 : sum_list (l1 ++ l2) = sum_list l1 + sum_list l2.
Proof.
  unfold sum_list. induction l1 as [|x l1 IH]; cbn; [done|]. lia.
Qed.

(** The summary, with the rows of the range named. *)
Lemma get_sales_summary_eq from_date to_date db :
  let rows := filter (on_days from_date to_date) (sales db) in
  let total := sum_list (Sale.total_cents <$> rows) in
  let count := Z.of_nat (length rows) in
  get_sales_summary from_date to_date db
  = (Success (SalesSummary.mk from_date to_date total count
                (if 0 <? count then total / count else 0)), db).
Proof.
  intros rows total count. unfold get_sales_summary.
  rewrite sql_sum_default.
  by rewrite (list_filter_iff _ (on_days from_date to_date))
    by (intros s; apply in_range_on_days).
Qed.

(** X14. A successful sale raises the revenue of every range of days that
    holds the day of its creation by its total, and the transaction count
    of that range by one; the summary of every other range is as
    before. *)
Theorem summary_after_sale now sd db r db' from_date to_date :
  create_new_sale now sd db = (Success r, db') →
  ∃ before after,
    get_sales_summary from_date to_date db = (Success before, db)
    ∧ get_sales_summary from_date to_date db' = (Success after, db')
    ∧ (from_date ≤ date_of now ≤ to_date →
       SalesSummary.total_revenue_cents after
         = SalesSummary.total_revenue_cents before
           + Sale.total_cents (SaleRead.sale r)
       ∧ SalesSummary.transaction_count after
         = SalesSummary.transaction_count before + 1)
    ∧ (¬ (from_date ≤ date_of now ≤ to_date) → after = before).
Proof.
  intros H%create_new_sale_Success_inv.
  destruct (create_sale_Ok_state _ _ _ _ _ H) as (-> & _ & _ & _ & _ & Hnow).
  eexists _, _. split; [apply get_sales_summary_eq|].
  split; [apply get_sales_summary_eq|].
  cbn [sales SalesSummary.total_revenue_cents
       SalesSummary.transaction_count].
  rewrite filter_app, (filter_singleton _ _ []).
  assert (Hiff : on_days from_date to_date (SaleRead.sale r)
                 ↔ from_date ≤ date_of now ≤ to_date)
    by (unfold on_days; by rewrite Hnow).
  destruct (decide (on_days from_date to_date (SaleRead.sale r)))
    as [Hd|Hd].
  - split; [intros _|intros Hout; tauto].
    rewrite fmap_app, sum_list_app, length_app. cbn. split; lia.
  - split; [intros Hin; tauto|intros _]. by rewrite app_nil_r.
Qed.

Lemma summary_after_sale_witness :
  (get_sales_summary 0 0 Sample.shop).1
    = Success (SalesSummary.mk 0 0 0 0 0)
  ∧ (get_sales_summary 0 0
       (create_new_sale 5 (Sample.order [Sample.item 1 3]) Sample.shop).2).1
    = Success (SalesSummary.mk 0 0 3240 1 3240).
Proof.
  split; [reflexivity|].
  destruct (create_new_sale 5 (Sample.order [Sample.item 1 3]) Sample.shop)
    as [[r| |] db'] eqn:E; [|vm_compute in E; discriminate E..].
  destruct (summary_after_sale 5 _ _ r db' 0 0 E)
    as (before & after & Hb & Ha & _).
  cbn [snd]. rewrite Ha. cbn [fst].
  vm_compute in E. injection E as <- <-. vm_compute in Ha.
  injection Ha as <-. reflexivity.
Defined.

Lemma filter_split_days a b c (l : list Sale.t) :
  a ≤ b + 1 → b ≤ c →
  sum_list (Sale.total_cents <$> filter (on_days a c) l)
  = sum_list (Sale.total_cents <$> filter (on_days a b) l)
    + sum_list (Sale.total_cents <$> filter (on_days (b + 1) c) l)
  ∧ length (filter (on_days a c) l)
    = Nat.add (length (filter (on_days a b) l))
              (length (filter (on_days (b + 1) c) l)).
Proof.
  intros Hab Hbc. induction l as [|s l [IHs IHl]]; [done|].
  rewrite !filter_cons. unfold sum_list in *.
  destruct (decide (on_days a c s)), (decide (on_days a b s)),
    (decide (on_days (b + 1) c s));
    unfold on_days in *; cbn [fmap list_fmap foldr length]; lia.
Qed.

(** X15. The summaries of two adjacent ranges of days add up to the
    summary of their union: no sale is counted twice or lost at the
    boundary between two days. *)
Theorem summary_of_adjacent_ranges a b c db :
  a ≤ b + 1 → b ≤ c →
  ∃ first second whole,
    get_sales_summary a b db = (Success first, db)
    ∧ get_sales_summary (b + 1) c db = (Success second, db)
    ∧ get_sales_summary a c db = (Success whole, db)
    ∧ SalesSummary.total_revenue_cents whole
      = SalesSummary.total_revenue_cents first
        + SalesSummary.total_revenue_cents second
    ∧ SalesSummary.transaction_count whole
      = SalesSummary.transaction_count first
        + SalesSummary.transaction_count second.
Proof.
  intros Hab Hbc. eexists _, _, _.
  split; [apply get_sales_summary_eq|].
  split; [apply get_sales_summary_eq|].
  split; [apply get_sales_summary_eq|].
  cbn [SalesSummary.total_revenue_cents SalesSummary.transaction_count].
  destruct (filter_split_days a b c (sales db) Hab Hbc) as [Hs Hl].
  split; [done|]. lia.
Qed.

(** Three sales of 1080, 540 and 810, the second in the last microsecond
    of day 1 and the third in the first microsecond of day 2: days 0 to 1
    hold the first two, days 2 to 3 the third, days 0 to 3 all of them. *)
Lemma summary_of_adjacent_ranges_witness :
  Sale.total_cents <$> sales Scenario.week = [1080; 540; 810]
  ∧ date_of <$> (Sale.created_at <$> sales Scenario.week) = [0; 1; 2]
  ∧ ∃ first second whole,
      get_sales_summary 0 1 Scenario.week = (Success first, Scenario.week)
      ∧ get_sales_summary 2 3 Scenario.week
        = (Success second, Scenario.week)
      ∧ get_sales_summary 0 3 Scenario.week = (Success whole, Scenario.week)
      ∧ SalesSummary.total_revenue_cents first = 1620
      ∧ SalesSummary.transaction_count first = 2
      ∧ SalesSummary.total_revenue_cents second = 810
      ∧ SalesSummary.transaction_count second = 1
      ∧ SalesSummary.total_revenue_cents whole
        = SalesSummary.total_revenue_cents first
          + SalesSummary.total_revenue_cents second
      ∧ SalesSummary.transaction_count whole
        = SalesSummary.transaction_count first
          + SalesSummary.transaction_count second.
Proof.
  split; [by vm_compute|]. split; [by vm_compute|].
  destruct (summary_of_adjacent_ranges 0 1 3 Scenario.week)
    as (first & second & whole & Hf & Hs & Hw & Hrev & Hcnt); [lia..|].
  exists first, second, whole.
  split; [exact Hf|]. split; [exact Hs|]. split; [exact Hw|].
  vm_compute in Hf. injection Hf as <-.
  vm_compute in Hs. injection Hs as <-.
  repeat (split; [reflexivity|]). split; [exact Hrev|exact Hcnt].
Defined.

(** X16. A range whose first day is after its last day is no error: its
    summary is 0, 0, 0. *)
Theorem summary_of_inverted_range from_date to_date db :
  to_date < from_date →
  get_sales_summary from_date to_date db
  = (Success (SalesSummary.mk from_date to_date 0 0 0), db).
Proof.
  intros Hinv. rewrite get_sales_summary_eq. cbv zeta.
  rewrite (filter_none (on_days from_date to_date)); [done|].
  apply Forall_forall. intros s _. unfold on_days. lia.
Qed.

Lemma summary_of_inverted_range_witness :
  get_sales_summary 7 3
    (create_new_sale 5 (Sample.order [Sample.item 1 3]) Sample.shop).2
  = (Success (SalesSummary.mk 7 3 0 0 0),
     (create_new_sale 5 (Sample.order [Sample.item 1 3]) Sample.shop).2).
Proof. apply (summary_of_inverted_range 7 3). lia. Defined.

Lemma elem_of_low_stock_report threshold db i p :
  (i, p) ∈ (match (get_low_stock_report threshold db).1 with
            | Success rows => rows
            | _ => []
            end)
  ↔ products db !! i = Some p ∧ is_low threshold p.
Proof.
  unfold get_low_stock_report. cbn [fst].
  rewrite merge_sort_Permutation, list_elem_of_filter, elem_of_map_to_list,
    low_stock_is_low. cbn. tauto.
Qed.

(** X17. After a successful sale every product whose remaining stock is at
    or below its reorder level is in the low-stock report. *)
Theorem sale_shows_in_low_stock_report now sd db r db' i p a level :
  create_new_sale now sd db = (Success r, db') →
  products db !! i = Some p →
  Product.quantity_available p = Some a →
  Product.reorder_level p = Some level →
  a - sold i (to_update <$> SaleCreate.items sd) ≤ level →
  ∃ rows p',
    get_low_stock_report None db' = (Success rows, db')
    ∧ (i, p') ∈ rows
    ∧ Product.quantity_available p'
      = Some (a - sold i (to_update <$> SaleCreate.items sd)).
Proof.
  intros H%create_new_sale_Success_inv Hp Ha Hl Hlow.
  destruct (create_sale_Ok_state _ _ _ _ _ H) as (Hdb & _).
  eexists _, (decrement (sold i (to_update <$> SaleCreate.items sd)) p).
  split; [reflexivity|].
  assert (Hq : Product.quantity_available
                 (decrement (sold i (to_update <$> SaleCreate.items sd)) p)
               = Some (a - sold i (to_update <$> SaleCreate.items sd))).
  { destruct p; cbn in *. by rewrite Ha. }
  split; [|done].
  apply (elem_of_low_stock_report None db'). split.
  - rewrite Hdb. cbn [products]. by rewrite lookup_foldl_sell, Hp.
  - cbn. eexists _, _. split; [exact Hq|]. split; [|exact Hlow].
    by destruct p.
Qed.

Lemma sale_shows_in_low_stock_report_witness :
  ∃ rows p',
    get_low_stock_report None
      (create_new_sale 0 (Sample.order [Sample.item 2 35]) Sample.shop).2
    = (Success rows,
       (create_new_sale 0 (Sample.order [Sample.item 2 35]) Sample.shop).2)
    ∧ (2, p') ∈ rows
    ∧ Product.quantity_available p' = Some 5.
Proof.
  destruct (create_new_sale 0 (Sample.order [Sample.item 2 35]) Sample.shop)
    as [[r| |] db'] eqn:E; [|vm_compute in E; discriminate E..].
  apply (sale_shows_in_low_stock_report 0 _ _ r db' 2 Sample.gadget 40 10 E);
    [reflexivity|reflexivity|reflexivity|vm_compute; congruence].
Defined.

(** ** More on the listings *)

(** A page of a list without repetition, and the page after it. *)
Lemma pages_concat {A} (l : list A) (skip n1 n2 : Z) :
  0 ≤ skip → 0 ≤ n1 → 0 ≤ n2 →
  take (Z.to_nat (n1 + n2)) (drop (Z.to_nat skip) l)
  = take (Z.to_nat n1) (drop (Z.to_nat skip) l)
    ++ take (Z.to_nat n2) (drop (Z.to_nat (skip + n1)) l).
Proof.
  intros Hs H1 H2. rewrite !Z2Nat.inj_add by done.
  rewrite <- drop_drop. by rewrite take_take_drop.
Qed.

Lemma NoDup_page {A} (l : list A) n k : NoDup l → NoDup (take n (drop k l)).
Proof.
  intros Hl. eapply sublist_NoDup; [exact Hl|].
  etrans; [apply sublist_take|apply sublist_drop].
Qed.

(** A list has one sorted arrangement when no two of its elements are
    ranked equal. *)
Lemma StronglySorted_unique_on {A} (R : relation A) (l1 : list A) :
  ∀ l2,
  (∀ x y, x ∈ l1 → y ∈ l1 → R x y → R y x → x = y) →
  StronglySorted R l1 → StronglySorted R l2 → l1 ≡ₚ l2 → l1 = l2.
Proof.
  induction l1 as [|x l1 IH]; intros l2 Hties Hs1 Hs2 Hperm.
  { by apply Permutation_nil_l in Hperm. }
  destruct l2 as [|y l2].
  { by apply Permutation_nil_r in Hperm. }
  apply StronglySorted_inv in Hs1 as [Hs1 Hx].
  apply StronglySorted_inv in Hs2 as [Hs2 Hy].
  rewrite Forall_forall in Hx, Hy.
  assert (x = y) as <-.
  { assert (x ∈ y :: l2) as Hxin by (rewrite <- Hperm; left).
    assert (y ∈ x :: l1) as Hyin by (rewrite Hperm; left).
    apply elem_of_cons in Hxin as [?|Hxin]; [done|].
    apply elem_of_cons in Hyin as [?|Hyin]; [done|].
    apply Hties; [left|by right|auto..]. }
  f_equal. apply IH; [|done|done|by apply Permutation_cons_inv in Hperm].
  intros a b Ha Hb. apply Hties; by right.
Qed.

Section PageOrder.

Variable name_le : string → string → bool.
Hypothesis name_le_total : ∀ a b, name_le a b = true ∨ name_le b a = true.
Hypothesis name_le_trans :
  ∀ a b c, name_le a b = true → name_le b c = true → name_le a c = true.

(** X18. When no two stored products have names the collation ranks equal,
    the products have one name order, and the pages of the listing are
    pages of it whatever the storage does with equal names.  Consecutive
    pages then fit together: the page of [n1] rows at [skip] followed by
    the page of [n2] rows at [skip + n1] is the page of [n1 + n2] rows at
    [skip], and no product is on it twice; a page that starts past the
    last product is empty. *)
Theorem get_products_pages skip n1 n2 db :
  0 ≤ skip → 0 ≤ n1 → 0 ≤ n2 →
  no_name_ties name_le db →
  ∃ page1 page2 both,
    get_products name_le skip n1 db = (Success page1, db)
    ∧ get_products name_le (skip + n1) n2 db = (Success page2, db)
    ∧ get_products name_le skip (n1 + n2) db = (Success both, db)
    ∧ (∀ ordered,
         ordered ≡ₚ map_to_list (products db) →
         StronglySorted (by_name name_le) ordered →
         page1 = take (Z.to_nat n1) (drop (Z.to_nat skip) ordered)
         ∧ page2 = take (Z.to_nat n2)
                     (drop (Z.to_nat (skip + n1)) ordered))
    ∧ both = page1 ++ page2
    ∧ NoDup both
    ∧ (Z.of_nat (size (products db)) ≤ skip → page1 = []).
Proof.
  intros Hs H1 H2 Hties. unfold get_products.
  repeat match goal with
         | |- context [?a <? 0] =>
             destruct (Z.ltb_spec a 0); [lia|]
         end.
  cbn [orb]. eexists _, _, _. repeat (split; [reflexivity|]).
  pose proof (by_name_total name_le name_le_total) as Htot.
  pose proof (by_name_trans name_le name_le_trans) as Htrans.
  split; [|split; [by apply pages_concat|split]].
  - intros ordered Hperm Hsorted.
    assert (merge_sort (by_name name_le) (map_to_list (products db))
            = ordered) as ->; [|done].
    apply (StronglySorted_unique_on (by_name name_le)).
    + intros [i p] [j q] Hx Hy Hxy Hyx.
      rewrite merge_sort_Permutation in Hx, Hy.
      apply elem_of_map_to_list in Hx, Hy.
      assert (i = j) as <- by exact (Hties i j p q Hx Hy Hxy Hyx).
      congruence.
    + by apply StronglySorted_merge_sort.
    + done.
    + by rewrite merge_sort_Permutation.
  - apply NoDup_page. rewrite merge_sort_Permutation.
    apply NoDup_map_to_list.
  - intros Hpast. rewrite drop_ge; [by rewrite take_nil|].
    rewrite (Permutation_length
               (merge_sort_Permutation (by_name name_le) _)).
    rewrite <- (length_map_to_list (products db)) in Hpast.
    unfold product_row. lia.
Qed.

End PageOrder.

Lemma sample_shop_no_name_ties : no_name_ties String.leb Sample.shop.
Proof.
  intros i j p q Hp Hq Hpq Hqp. unfold Sample.shop in Hp, Hq.
  cbn [products] in Hp, Hq.
  repeat (apply lookup_insert_Some in Hp as [[<- <-]|[? Hp]];
          [|try done]);
    repeat (apply lookup_insert_Some in Hq as [[<- <-]|[? Hq]];
            [|try done]);
    first [reflexivity | vm_compute in Hpq; vm_compute in Hqp; congruence].
Qed.

(** The three products of the sample shop, listed by name: the first on
    one page, the other two on the next. *)
Lemma get_products_pages_witness :
  ∃ page1 page2,
    get_products String.leb 0 1 Sample.shop = (Success page1, Sample.shop)
    ∧ get_products String.leb 1 2 Sample.shop = (Success page2, Sample.shop)
    ∧ page1 = [(2, Sample.gadget)]
    ∧ page2 = [(3, Sample.jewel); (1, Sample.widget)]
    ∧ get_products String.leb 0 3 Sample.shop
      = (Success (page1 ++ page2), Sample.shop).
Proof.
  destruct (get_products_pages String.leb String.leb_total string_leb_trans
              0 1 2 Sample.shop)
    as (page1 & page2 & both & H1 & H2 & H12 & _ & Hcat & _);
    [lia..|exact sample_shop_no_name_ties|].
  exists page1, page2. split; [exact H1|]. split; [exact H2|].
  rewrite <- Hcat. split; [|split; [|exact H12]].
  - vm_compute in H1. by injection H1 as <-.
  - vm_compute in H2. by injection H2 as <-.
Defined.

Global Instance newest_first_total : Total newest_first.
Proof. intros x y. unfold newest_first. lia. Qed.

Global Instance newest_first_trans : Transitive newest_first.
Proof. intros x y z. unfold newest_first. lia. Qed.

(** X19. The sales listing holds the sales of the ledger from the newest
    to the oldest, without the first [skip] of that order and cut after
    [limit] rows, each with the sale items that refer to it; the state is
    unchanged.  A negative [skip] or [limit] is answered with status
    500. *)
Theorem get_sales_spec skip limit db :
  (0 ≤ skip → 0 ≤ limit →
   ∃ rows ordered,
     get_sales skip limit db = (Success rows, db)
     ∧ ordered ≡ₚ sales db
     ∧ StronglySorted newest_first ordered
     ∧ SaleRead.sale <$> rows
       = take (Z.to_nat limit) (drop (Z.to_nat skip) ordered)
     ∧ Forall (λ r, SaleRead.items r
                    = items_of db (Sale.id (SaleRead.sale r))) rows
     ∧ Z.of_nat (length rows) ≤ limit)
  ∧ (skip < 0 ∨ limit < 0 →
     get_sales skip limit db
     = (ServerError "Error fetching sales: " ProgrammingError, db)).
Proof.
  unfold get_sales. split.
  - intros Hs Hl.
    destruct (Z.ltb_spec skip 0); [lia|].
    destruct (Z.ltb_spec limit 0); [lia|]. cbn [orb].
    eexists _, (merge_sort newest_first (sales db)).
    split; [reflexivity|]. split; [apply merge_sort_Permutation|].
    split; [apply StronglySorted_merge_sort; apply _|].
    split; [|split].
    + rewrite <- list_fmap_compose. apply list_fmap_id.
    + apply Forall_fmap, Forall_true. done.
    + rewrite length_fmap, length_take. lia.
  - intros Hneg.
    destruct (Z.ltb_spec skip 0), (Z.ltb_spec limit 0); try done. lia.
Qed.

Section PartyOrder.

Variable name_le : string → string → bool.
Hypothesis name_le_total : ∀ a b, name_le a b = true ∨ name_le b a = true.
Hypothesis name_le_trans :
  ∀ a b c, name_le a b = true → name_le b c = true → name_le a c = true.

Local Instance by_supplier_name_total : Total (by_supplier_name name_le).
Proof. intros x y. apply name_le_total. Qed.

Local Instance by_supplier_name_trans :
  Transitive (by_supplier_name name_le).
Proof. intros x y z. apply name_le_trans. Qed.

Local Instance by_customer_name_total : Total (by_customer_name name_le).
Proof. intros x y. apply name_le_total. Qed.

Local Instance by_customer_name_trans :
  Transitive (by_customer_name name_le).
Proof. intros x y z. apply name_le_trans. Qed.

(** X20. The supplier and the customer listings hold the stored rows in
    ascending order of name, without the first [skip] of that order and
    cut after [limit] rows, each row once; the state is unchanged. *)
Theorem get_parties_spec skip limit db :
  0 ≤ skip → 0 ≤ limit →
  (∃ rows ordered,
     get_suppliers name_le skip limit db = (Success rows, db)
     ∧ ordered ≡ₚ map_to_list (suppliers db)
     ∧ StronglySorted (by_supplier_name name_le) ordered
     ∧ rows = take (Z.to_nat limit) (drop (Z.to_nat skip) ordered)
     ∧ NoDup rows
     ∧ Z.of_nat (length rows) ≤ limit)
  ∧ (∃ rows ordered,
       get_customers name_le skip limit db = (Success rows, db)
       ∧ ordered ≡ₚ map_to_list (customers db)
       ∧ StronglySorted (by_customer_name name_le) ordered
       ∧ rows = take (Z.to_nat limit) (drop (Z.to_nat skip) ordered)
       ∧ NoDup rows
       ∧ Z.of_nat (length rows) ≤ limit).
Proof.
  intros Hs Hl. unfold get_suppliers, get_customers.
  destruct (Z.ltb_spec skip 0); [lia|].
  destruct (Z.ltb_spec limit 0); [lia|]. cbn [orb].
  split.
  - eexists _, (merge_sort (by_supplier_name name_le)
                           (map_to_list (suppliers db))).
    split; [reflexivity|]. split; [apply merge_sort_Permutation|].
    split; [apply StronglySorted_merge_sort; apply _|].
    split; [done|]. split; [|rewrite length_take; lia].
    apply NoDup_page. rewrite merge_sort_Permutation.
    apply NoDup_map_to_list.
  - eexists _, (merge_sort (by_customer_name name_le)
                           (map_to_list (customers db))).
    split; [reflexivity|]. split; [apply merge_sort_Permutation|].
    split; [apply StronglySorted_merge_sort; apply _|].
    split; [done|]. split; [|rewrite length_take; lia].
    apply NoDup_page. rewrite merge_sort_Permutation.
    apply NoDup_map_to_list.
Qed.

End PartyOrder.

Lemma get_parties_spec_witness :
  ∃ rows,
    get_customers String.leb 0 5
      (serve (CreateCustomer (Customer.mk "Ada" None None)) empty_db)
    = (Success rows,
       serve (CreateCustomer (Customer.mk "Ada" None None)) empty_db)
    ∧ Z.of_nat (length rows) ≤ 5.
Proof.
  destruct (proj2 (get_parties_spec String.leb String.leb_total
                     string_leb_trans 0 5
                     (serve (CreateCustomer (Customer.mk "Ada" None None))
                            empty_db) ltac:(done) ltac:(done)))
    as (rows & ordered & Heq & _ & _ & _ & _ & Hlen).
  exists rows. done.
Defined.

(** ** More on updates *)

Lemma patch_idempotent {A} (u : option (option A)) (o : option A) :
  patch u (patch u o) = patch u o.
Proof. by destruct u. Qed.

Lemma set_attributes_idempotent u o :
  set_attributes u (set_attributes u o) = set_attributes u o.
Proof.
  unfold set_attributes. cbn. by rewrite !patch_idempotent.
Qed.

Lemma to_row_of_row p : ProductObj.to_row (ProductObj.of_row p) = Some p.
Proof. by destruct p. Qed.

Lemma update_accepted_same db p : update_accepted db p p = true.
Proof.
  unfold update_accepted, update_fits, update_keys_ok.
  by rewrite !bool_decide_eq_true_2.
Qed.

Lemma set_products_insert_insert i p q db :
  set_products
    (<[i := p]> (products (set_products (<[i := q]> (products db)) db)))
    (set_products (<[i := q]> (products db)) db)
  = set_products (<[i := p]> (products db)) db.
Proof.
  unfold set_products. cbn. by rewrite insert_insert_eq.
Qed.

(** X21. An update is idempotent: repeating a request that succeeded
    succeeds again with the same product and leaves the state as the
    first time left it. *)
Theorem update_product_idempotent i u db p' db' :
  update_product i u db = (Success (i, p'), db') →
  update_product i u db' = (Success (i, p'), db').
Proof.
  unfold update_product at 1.
  destruct (products db !! i) as [p|] eqn:Hp; [|done].
  destruct (commit_product i p _ db) as [[q db1]|e] eqn:E;
    [|by apply commit_product_Raise in E as [f ->]].
  intros [= -> ->].
  apply commit_product_inv in E as (Hrow & _ & ->).
  unfold update_product. cbn [products set_products].
  rewrite lookup_insert_eq.
  rewrite (of_row_to_row _ _ Hrow), set_attributes_idempotent.
  rewrite <- (of_row_to_row _ _ Hrow).
  rewrite (commit_product_accepted _ _ _ _ p' (to_row_of_row p')
             (update_accepted_same _ p')).
  by rewrite set_products_insert_insert.
Qed.

Lemma update_product_idempotent_witness :
  update_product 1 (Sample.restock 9)
                 (update_product 1 (Sample.restock 9) Sample.shop).2
  = (Success (1, Product.mk "Widget" "W-1" 1000 (Some 9) (Some 10) None),
     (update_product 1 (Sample.restock 9) Sample.shop).2).
Proof.
  apply (update_product_idempotent 1 (Sample.restock 9) Sample.shop).
  reflexivity.
Defined.

(** X22. A request that carries no field is accepted for every stored
    product, answers with the product as it is and leaves the state
    unchanged; for an id that is not stored it answers 404. *)
Theorem update_product_without_fields i db :
  match products db !! i with
  | Some p => update_product i Sample.no_change db = (Success (i, p), db)
  | None => update_product i Sample.no_change db
            = (HTTPError 404 "Product not found", db)
  end.
Proof.
  unfold update_product.
  destruct (products db !! i) as [p|] eqn:Hp; [|done].
  unfold Sample.no_change, set_attributes. cbn [patch
    ProductUpdate.name ProductUpdate.sku ProductUpdate.unit_price_cents
    ProductUpdate.quantity_available ProductUpdate.reorder_level
    ProductUpdate.supplier_id].
  replace (ProductObj.mk _ _ _ _ _ _) with (ProductObj.of_row p)
    by (by destruct p).
  rewrite (commit_product_accepted _ _ _ _ p (to_row_of_row p)
             (update_accepted_same _ p)).
  do 2 f_equal.
  destruct db. unfold set_products. cbn in *. f_equal.
  by apply insert_id.
Qed.
